(** * vprof memory profiler: a shallow embedding of [vprof/memory_profile.py]

    The development follows the source file top to bottom: Python values and
    exceptions, the heap census helpers ([_remove_duplicates],
    [_get_object_count_by_type], [_get_obj_count_difference],
    [_format_obj_count]), the [_CodeEventsTracker] class and finally the four
    run modes of [MemoryProfile] with [MemoryProfile.run].  Python 3
    semantics are followed: dictionaries iterate in insertion order and
    [<] between a number and a string raises [TypeError]. *)

From Stdlib Require Import ZArith QArith Qminmax Ascii String List Lia Permutation Sorted.
From stdpp Require Import base decidable option list strings gmap.

Local Open Scope string_scope.
Local Open Scope list_scope.
Local Open Scope Z_scope.

(** ** Python exceptions and results *)

Inductive exn : Type :=
  | SystemExit
  | IndexError
  | TypeError
  | IOError
  | SyntaxError
  | ImportError
  | OtherError (name : string).

Inductive pyresult (A : Type) : Type :=
  | Ok (a : A)
  | Raise (e : exn).

Arguments Ok {A} a.
Arguments Raise {A} e.

Definition rbind {A B : Type} (r : pyresult A) (k : A -> pyresult B) : pyresult B :=
  match r with
  | Ok a => k a
  | Raise e => Raise e
  end.

Notation "'do' x <- r ; k" := (rbind r (fun x => k))
  (at level 10, x name, r at level 100, k at level 200).

Definition is_ok {A : Type} (r : pyresult A) : bool :=
  match r with Ok _ => true | Raise _ => false end.

(** ** Dynamically typed values stored in an event row

    A processed event is the Python list [[i + 1, lineno, mem_in_mb, func,
    fname]]; its cells hold ints, floats and strings and the source indexes
    them by position, so a row is a list of tagged values.  [mem_in_mb] is
    [float(n) / 2**20]: for the resident sizes a process can report
    ([|n| < 2**53]) that quotient is exact, and it is represented by the
    rational [n # 2^20]. *)

Inductive pyval : Type :=
  | PyInt (z : Z)
  | PyFloat (q : Q)
  | PyStr (s : string).

Definition row : Type := list pyval.

(** Python [==]: numbers compare by value, a number never equals a string. *)
Definition py_eq (a b : pyval) : bool :=
  match a, b with
  | PyInt x, PyInt y => Z.eqb x y
  | PyInt x, PyFloat y => Qeq_bool (inject_Z x) y
  | PyFloat x, PyInt y => Qeq_bool x (inject_Z y)
  | PyFloat x, PyFloat y => Qeq_bool x y
  | PyStr x, PyStr y => String.eqb x y
  | _, _ => false
  end.

Definition Qlt_bool (x y : Q) : bool := negb (Qle_bool y x).

(** Python 3 [<]: defined on two numbers and on two strings, [TypeError]
    between a number and a string. *)
Definition py_lt (a b : pyval) : pyresult bool :=
  match a, b with
  | PyInt x, PyInt y => Ok (Z.ltb x y)
  | PyInt x, PyFloat y => Ok (Qlt_bool (inject_Z x) y)
  | PyFloat x, PyInt y => Ok (Qlt_bool x (inject_Z y))
  | PyFloat x, PyFloat y => Ok (Qlt_bool x y)
  | PyStr x, PyStr y => Ok (String.ltb x y)
  | _, _ => Raise TypeError
  end.

(** [r[k]] for a non-negative index. *)
Definition getitem (r : row) (k : nat) : pyresult pyval :=
  match r !! k with
  | Some v => Ok v
  | None => Raise IndexError
  end.

(** ** Raw events and the coalescing pass of [code_events] *)

Definition _BYTES_IN_MB : positive := 1048576.

(** One entry of [_events_list]:
    [(frame.f_lineno, curr_memory, co_name, co_filename)]. *)
Record raw_event : Type := RawEvent {
  ev_lineno : Z;
  ev_mem : Z;
  ev_func : string;
  ev_fname : string
}.

Definition mem_in_mb (mem overhead : Z) : Q := (mem - overhead) # _BYTES_IN_MB.

(** The test of the [if] in the loop of [code_events], on the last row
    [self._resulting_events[-1]], with the cell indices of the source and
    the left-to-right short circuit of [and]. *)
Definition coalesce_test (last_row : row) (lineno : Z) (mem_mb : Q)
    (func fname : string) : pyresult bool :=
  do c0 <- getitem last_row 0;
  if negb (py_eq c0 (PyInt lineno)) then Ok false else
  do c2 <- getitem last_row 2;
  if negb (py_eq c2 (PyStr func)) then Ok false else
  do c3 <- getitem last_row 3;
  if negb (py_eq c3 (PyStr fname)) then Ok false else
  do c1 <- getitem last_row 1;
  py_lt c1 (PyFloat mem_mb).

Definition new_row (i : nat) (lineno : Z) (mem_mb : Q) (func fname : string) : row :=
  [PyInt (Z.of_nat i + 1); PyInt lineno; PyFloat mem_mb; PyStr func; PyStr fname].

(** [acc[-1][1] = mem_in_mb]; the loop comes here only after it has read
    [acc[-1][1]], so the cell is there. *)
Definition set_last_cell1 (acc : list row) (mem_mb : Q) : list row :=
  match last acc with
  | Some r => <[ pred (length acc) := <[ 1%nat := PyFloat mem_mb ]> r ]> acc
  | None => acc
  end.

(** One iteration of the [for] loop; [acc] is [self._resulting_events]. *)
Definition code_events_step (overhead : option Z) (acc : list row) (i : nat)
    (ev : raw_event) : pyresult (list row) :=
  match overhead with
  | None => Raise TypeError
  | Some o =>
      let mem_mb := mem_in_mb (ev_mem ev) o in
      let fresh := acc ++ [new_row i (ev_lineno ev) mem_mb (ev_func ev) (ev_fname ev)] in
      match last acc with
      | None => Ok fresh
      | Some last_row =>
          do hit <- coalesce_test last_row (ev_lineno ev) mem_mb (ev_func ev) (ev_fname ev);
          if hit then Ok (set_last_cell1 acc mem_mb) else Ok fresh
      end
  end.

(** The loop over [enumerate(self._events_list)], started at index [i].  The
    list [acc] is mutated in place, so it is returned also when an iteration
    raises. *)
Fixpoint code_events_loop (overhead : option Z) (i : nat) (evs : list raw_event)
    (acc : list row) : list row * option exn :=
  match evs with
  | [] => (acc, None)
  | ev :: rest =>
      match code_events_step overhead acc i ev with
      | Ok acc' => code_events_loop overhead (S i) rest acc'
      | Raise e => (acc, Some e)
      end
  end.

(** ** Heap census: objects, types and [Counter] *)

(** A type object, known by its identity and by what [repr] prints for it. *)
Record pytype : Type := PyType {
  ty_id : N;
  ty_repr : string
}.

Global Instance pytype_eq_dec : EqDecision pytype.
Proof. solve_decision. Defined.

Definition list_type : pytype := PyType 1 "<class 'list'>".
Definition dict_type : pytype := PyType 2 "<class 'dict'>".
Definition set_type : pytype := PyType 3 "<class 'set'>".
Definition deque_type : pytype := PyType 4 "<class 'collections.deque'>".
Definition frame_type : pytype := PyType 5 "<class 'frame'>".
Definition tracker_type : pytype :=
  PyType 6 "<class 'vprof.memory_profile._CodeEventsTracker'>".

(** An entry of [gc.get_objects()]: [id(obj)] and [type(obj)]. *)
Record pyobject : Type := PyObject {
  obj_id : N;
  obj_type : pytype
}.

Definition isframe (o : pyobject) : bool := bool_decide (obj_type o = frame_type).

(** [_remove_duplicates]: the loop with its [seen] set and [uniq] list. *)
Fixpoint remove_duplicates_loop (objects : list pyobject) (seen : gset N)
    (uniq : list pyobject) : list pyobject :=
  match objects with
  | [] => uniq
  | obj :: rest =>
      if bool_decide (obj_id obj ∈ seen) then remove_duplicates_loop rest seen uniq
      else remove_duplicates_loop rest ({[obj_id obj]} ∪ seen) (uniq ++ [obj])
  end.

Definition _remove_duplicates (objects : list pyobject) : list pyobject :=
  remove_duplicates_loop objects ∅ [].

Definition _process_in_memory_objects (objects : list pyobject) : list pyobject :=
  _remove_duplicates (List.filter (fun obj => negb (isframe obj)) objects).

(** [collections.Counter] on Python 3.7+: a dict from type to count that
    iterates in insertion order, hence an association list with one entry
    per key, oldest first. *)
Definition counter : Type := list (pytype * Z).

(** [c[t]]: [Counter.__missing__] gives 0 and inserts nothing. *)
Fixpoint counter_get (c : counter) (t : pytype) : Z :=
  match c with
  | [] => 0
  | (t', n) :: c' => if bool_decide (t' = t) then n else counter_get c' t
  end.

(** [t in c] *)
Definition counter_mem (c : counter) (t : pytype) : bool :=
  existsb (fun e => bool_decide (fst e = t)) c.

(** [c[t] = v]: a present key keeps its position, a new key goes last. *)
Fixpoint counter_set (c : counter) (t : pytype) (v : Z) : counter :=
  match c with
  | [] => [(t, v)]
  | (t', n) :: c' =>
      if bool_decide (t' = t) then (t', v) :: c' else (t', n) :: counter_set c' t v
  end.

(** [Counter(iterable)]: one [self[elem] = self.get(elem, 0) + 1] per element. *)
Definition counter_of (elems : list pytype) : counter :=
  fold_left (fun c t => counter_set c t (counter_get c t + 1)) elems [].

Definition _get_object_count_by_type (objects : list pyobject) : counter :=
  counter_of (map obj_type objects).

(** [Counter.__sub__], as in CPython's [collections/__init__.py].  Its first
    loop, over [self.items()], keeps [count - other[elem]] only when that is
    positive. *)
Definition sub_step1 (other : counter) (result : counter) (e : pytype * Z) : counter :=
  let newcount := snd e - counter_get other (fst e) in
  if 0 <? newcount then counter_set result (fst e) newcount else result.

(** Its second loop, over [other.items()], adds the keys that are missing
    from [self] and negative in [other]. *)
Definition sub_step2 (self : counter) (result : counter) (e : pytype * Z) : counter :=
  if negb (counter_mem self (fst e)) && (snd e <? 0)
  then counter_set result (fst e) (0 - snd e) else result.

Definition counter_sub (self other : counter) : counter :=
  fold_left (sub_step2 self) other (fold_left (sub_step1 other) self []).

Definition _get_obj_count_difference (objs1 objs2 : list pyobject) : counter :=
  let clean_obj_list1 := _process_in_memory_objects objs1 in
  let clean_obj_list2 := _process_in_memory_objects objs2 in
  let obj_count_1 := _get_object_count_by_type clean_obj_list1 in
  let obj_count_2 := _get_object_count_by_type clean_obj_list2 in
  counter_sub obj_count_1 obj_count_2.

(** ** The regular expression of [_format_obj_count]

    [re.compile(r'<(?P<type>\w+) \'(?P<name>\S+)\'>')] is a sequence of
    literal characters and of two captured greedy repetitions of a character
    class.  [match_here] is the backtracking matcher for such sequences: a
    repetition first tries to take one more character and gives characters
    back only when the rest of the pattern fails. *)

Inductive re_item : Type :=
  | Lit (c : ascii)
  | PlusGroup (cls : ascii -> bool).

Definition in_range (lo hi : string) (c : ascii) : bool :=
  match lo, hi with
  | String l EmptyString, String h EmptyString =>
      (N.leb (N_of_ascii l) (N_of_ascii c)) && (N.leb (N_of_ascii c) (N_of_ascii h))
  | _, _ => false
  end.

(** [\w] on ASCII text: letters, digits and the underscore. *)
Definition is_word (c : ascii) : bool :=
  in_range "a" "z" c || in_range "A" "Z" c || in_range "0" "9" c
  || Ascii.eqb c "_"%char.

(** [\s]: space, tab, line feed, vertical tab, form feed, carriage return. *)
Definition is_space (c : ascii) : bool :=
  let n := N_of_ascii c in
  N.eqb n 32 || (N.leb 9 n && N.leb n 13).

Definition is_nonspace (c : ascii) : bool := negb (is_space c).

Definition regex : list re_item :=
  [Lit "<"; PlusGroup is_word; Lit " "; Lit "'"; PlusGroup is_nonspace;
   Lit "'"; Lit ">"]%char.

(** A greedy repetition of [cls] that has already taken [taken]: take one
    more character and try to go on; when that fails, stop here and match
    the rest of the pattern, [rest]. *)
Fixpoint plus_group (cls : ascii -> bool) (rest : string -> option (list string))
    (s taken : string) : option (list string) :=
  match s with
  | String c s' =>
      if cls c then
        let taken' := (taken ++ String c EmptyString)%string in
        match plus_group cls rest s' taken' with
        | Some groups => Some groups
        | None =>
            match rest s' with
            | Some groups => Some (taken' :: groups)
            | None => None
            end
        end
      else None
  | EmptyString => None
  end.

(** Match the pattern at the start of [s]: the captured groups, in order. *)
Fixpoint match_here (p : list re_item) (s : string) : option (list string) :=
  match p with
  | [] => Some []
  | Lit c :: p' =>
      match s with
      | String c' s' => if Ascii.eqb c c' then match_here p' s' else None
      | EmptyString => None
      end
  | PlusGroup cls :: p' => plus_group cls (match_here p') s EmptyString
  end.

(** The first tuple of [re.findall(regex, s)]: the leftmost position where
    the pattern matches.  [None] stands for the empty list of matches, on
    which [match[0]] raises [IndexError]. *)
Fixpoint first_match (s : string) : option (list string) :=
  match match_here regex s with
  | Some groups => Some groups
  | None =>
      match s with
      | String _ s' => first_match s'
      | EmptyString => None
      end
  end.

(** [_, name = match[0]] *)
Definition type_display_name (t : pytype) : pyresult string :=
  match first_match (ty_repr t) with
  | Some [_; name] => Ok name
  | _ => Raise IndexError
  end.

(** ** [sorted(result, key=operator.itemgetter(1), reverse=True)]

    Python's sort is stable, also with [reverse=True]: entries with equal
    keys keep their relative order.  Insertion from the right end gives the
    same list. *)
Fixpoint insert_desc (x : string * Z) (l : list (string * Z)) : list (string * Z) :=
  match l with
  | [] => [x]
  | y :: l' => if snd x <? snd y then y :: insert_desc x l' else x :: y :: l'
  end.

Definition sorted_desc (l : list (string * Z)) : list (string * Z) :=
  fold_right insert_desc [] l.

(** The [for] loop of [_format_obj_count] over [obj_count.items()]. *)
Fixpoint format_loop (items : counter) (result : list (string * Z))
    : pyresult (list (string * Z)) :=
  match items with
  | [] => Ok result
  | (obj_type, obj_count) :: rest =>
      if negb (obj_count =? 0) then
        do name <- type_display_name obj_type;
        format_loop rest (result ++ [(name, obj_count)])
      else format_loop rest result
  end.

Definition _format_obj_count (obj_count : counter) : pyresult (list (string * Z)) :=
  do result <- format_loop obj_count [];
  Ok (sorted_desc result).

(** ** The process: trace hook, trackers and resident size *)

(** A compiled code object with the code objects among its [co_consts]. *)
#[local] Set Warnings "-register-all".
Inductive code : Type :=
  | Code (id : N) (name filename : string) (consts : list code).

Definition co_id (c : code) : N := match c with Code i _ _ _ => i end.
Definition co_name (c : code) : string := match c with Code _ n _ _ => n end.
Definition co_filename (c : code) : string := match c with Code _ _ f _ => f end.
Definition co_consts (c : code) : list code := match c with Code _ _ _ l => l end.

(** What [sys.gettrace()] can hold: the bound method [_trace_memory_usage] of
    a tracker, or a trace function of the host (a debugger, coverage). *)
Inductive tracefn : Type :=
  | ForeignTrace (n : N)
  | TrackerTrace (tid : nat).

Global Instance tracefn_eq_dec : EqDecision tracefn.
Proof. solve_decision. Defined.

(** The attributes of a [_CodeEventsTracker]; [_pid] is the constant
    [os.getpid()] and is left out. *)
Record tracker : Type := Tracker {
  _all_code : gset N;
  _events_list : list raw_event;
  _original_trace_function : option tracefn;
  _resulting_events : list row;
  mem_overhead : option Z
}.

(** The interpreter state the profiler reads and writes.  [settrace_calls]
    records every call of [sys.settrace], oldest first. *)
Record world : Type := World {
  sys_trace : option tracefn;
  settrace_calls : list (option tracefn);
  trackers : list tracker;
  rss : Z;
  initial_rss_size : Z
}.

Definition settrace (f : option tracefn) (w : world) : world :=
  World f (settrace_calls w ++ [f]) (trackers w) (rss w) (initial_rss_size w).

Definition set_trackers (ts : list tracker) (w : world) : world :=
  World (sys_trace w) (settrace_calls w) ts (rss w) (initial_rss_size w).

Definition set_rss (bytes : Z) (w : world) : world :=
  World (sys_trace w) (settrace_calls w) (trackers w) bytes (initial_rss_size w).

Definition update_tracker (tid : nat) (f : tracker -> tracker) (w : world) : world :=
  set_trackers (alter f tid (trackers w)) w.

(** [_get_memory_usage_for_process(self._pid)] *)
Definition _get_memory_usage_for_process (w : world) : Z := rss w.

(** [_CodeEventsTracker.__init__]: the new object is the last tracker. *)
Definition __init__ (w : world) : nat * world :=
  (length (trackers w),
   set_trackers (trackers w ++ [Tracker ∅ [] (sys_trace w) [] None]) w).

(** [add_code] *)
Fixpoint add_code (c : code) (all_code : gset N) : gset N :=
  match c with
  | Code i _ _ consts =>
      if bool_decide (i ∈ all_code) then all_code
      else fold_left (fun s subcode => add_code subcode s) consts ({[i]} ∪ all_code)
  end.

Definition tracker_add_code (tid : nat) (c : code) (w : world) : world :=
  update_tracker tid
    (fun t => Tracker (add_code c (_all_code t)) (_events_list t)
                (_original_trace_function t) (_resulting_events t) (mem_overhead t)) w.

(** [_CodeEventsTracker.__enter__] *)
Definition __enter__ (tid : nat) (w : world) : world :=
  settrace (Some (TrackerTrace tid)) w.

(** [_CodeEventsTracker.__exit__]; it returns [None], so an exception of
    the body goes on. *)
Definition __exit__ (tid : nat) (w : world) : world :=
  match trackers w !! tid with
  | Some t => settrace (_original_trace_function t) w
  | None => w
  end.

(** [_trace_memory_usage] on a ['line'] event of a frame running [c]. *)
Definition _trace_memory_usage (tid : nat) (c : code) (lineno : Z) (w : world) : world :=
  update_tracker tid
    (fun t =>
       if bool_decide (co_id c ∈ _all_code t) then
         Tracker (_all_code t)
           (_events_list t ++
              [RawEvent lineno (_get_memory_usage_for_process w) (co_name c)
                 (co_filename c)])
           (_original_trace_function t) (_resulting_events t) (mem_overhead t)
       else t) w.

(** [compute_mem_overhead] *)
Definition compute_mem_overhead (tid : nat) (w : world) : world :=
  update_tracker tid
    (fun t => Tracker (_all_code t) (_events_list t) (_original_trace_function t)
                (_resulting_events t)
                (Some (_get_memory_usage_for_process w - initial_rss_size w))) w.

(** The [code_events] property. *)
Definition code_events (t : tracker) : pyresult (list row) * tracker :=
  match _resulting_events t with
  | _ :: _ => (Ok (_resulting_events t), t)
  | [] =>
      let '(acc, err) := code_events_loop (mem_overhead t) 0 (_events_list t) [] in
      let t' := Tracker (_all_code t) (_events_list t) (_original_trace_function t)
                  acc (mem_overhead t) in
      match err with
      | None => (Ok acc, t')
      | Some e => (Raise e, t')
      end
  end.

(** How many iterations of the loop a read of [code_events] enters. *)
Fixpoint loop_iterations (overhead : option Z) (i : nat) (evs : list raw_event)
    (acc : list row) : nat :=
  match evs with
  | [] => 0
  | ev :: rest =>
      match code_events_step overhead acc i ev with
      | Ok acc' => S (loop_iterations overhead (S i) rest acc')
      | Raise _ => 1
      end
  end.

Definition code_events_iterations (t : tracker) : nat :=
  match _resulting_events t with
  | _ :: _ => 0%nat
  | [] => loop_iterations (mem_overhead t) 0 (_events_list t) []
  end.

(** The [obj_overhead] property. *)
Definition obj_overhead : counter :=
  let overhead := [tracker_type; list_type; deque_type; set_type] in
  let overhead_count := counter_of overhead in
  counter_set overhead_count dict_type (counter_get overhead_count dict_type + 2).

(** ** The profiled target

    What running the target does to the process, as far as the profiler can
    see it: frames reach lines, the resident size changes, the target may
    install a trace function of its own, and at the end it returns or
    raises.  Line events are delivered to the installed trace function. *)

Inductive step : Type :=
  | Line (c : code) (lineno : Z)
  | Rss (bytes : Z)
  | SetTrace (f : option tracefn).

Record program : Type := Program {
  prog_steps : list step;
  prog_raises : option exn
}.

Definition exec_step (s : step) (w : world) : world :=
  match s with
  | Line c lineno =>
      match sys_trace w with
      | Some (TrackerTrace tid) => _trace_memory_usage tid c lineno w
      | _ => w
      end
  | Rss bytes => set_rss bytes w
  | SetTrace f => settrace f w
  end.

Definition exec_program (p : program) (w : world) : pyresult unit * world :=
  let w' := fold_left (fun w s => exec_step s w) (prog_steps p) w in
  match prog_raises p with
  | None => (Ok tt, w')
  | Some e => (Raise e, w')
  end.

(** ** The run modes of [MemoryProfile] *)

(** [with _CodeEventsTracker() as prof: body]: the tracker, what the
    statement yields and the state after [__exit__]. *)
Definition with_tracker {A : Type} (body : nat -> world -> pyresult A * world)
    (w : world) : nat * pyresult A * world :=
  let '(prof, w1) := __init__ w in
  let w2 := __enter__ prof w1 in
  let '(r, w3) := body prof w2 in
  (prof, r, __exit__ prof w3).

(** [try: ... except SystemExit: pass] *)
Definition except_SystemExit (r : pyresult unit) : pyresult unit :=
  match r with
  | Raise SystemExit => Ok tt
  | _ => r
  end.

Definition add_all_code (prof : nat) (codes : list code) (w : world) : world :=
  fold_left (fun w compiled_code => tracker_add_code prof compiled_code w) codes w.

(** [run_as_package_path]; [pkg_code] is what
    [base_profile.get_package_code(self._run_object, name_is_path=True)]
    gives, the code objects of the package or the failure to load them, and
    [target] is what [runpy.run_path] does. *)
Definition run_as_package_path (pkg_code : pyresult (list code)) (target : program)
    (w : world) : pyresult nat * world :=
  match pkg_code with
  | Raise e => (Raise e, w)
  | Ok codes =>
      let '(prof, r, w') :=
        with_tracker (fun prof w =>
          let w := add_all_code prof codes w in
          let w := compute_mem_overhead prof w in
          let '(r, w) := exec_program target w in
          (except_SystemExit r, w)) w in
      (do _ <- r; Ok prof, w')
  end.

(** [run_as_module]; [opened] is the outcome of [open(self._run_object, 'rb')],
    [compiled] that of [compile(srcfile.read(), ...)] and [target] is what
    [exec(code, self._globs, None)] does. *)
Definition run_as_module (opened : option exn) (compiled : pyresult code)
    (target : program) (w : world) : pyresult nat * world :=
  match opened with
  | Some e => (Raise e, w)
  | None =>
      let '(prof, r, w') :=
        with_tracker (fun prof w =>
          match compiled with
          | Raise e => (Raise e, w)
          | Ok c =>
              let w := tracker_add_code prof c w in
              let w := compute_mem_overhead prof w in
              exec_program target w
          end) w in
      (do _ <- except_SystemExit r; Ok prof, w')
  end.

(** [run_as_package_in_namespace]; [pkg_code] is what
    [base_profile.get_package_code(self._run_object)] gives and [target] is
    what [runpy.run_module] does. *)
Definition run_as_package_in_namespace (pkg_code : pyresult (list code))
    (target : program) (w : world) : pyresult nat * world :=
  match pkg_code with
  | Raise e => (Raise e, w)
  | Ok codes =>
      let '(prof, r, w') :=
        with_tracker (fun prof w =>
          let w := add_all_code prof codes w in
          let w := compute_mem_overhead prof w in
          let '(r, w) := exec_program target w in
          (except_SystemExit r, w)) w in
      (do _ <- r; Ok prof, w')
  end.

(** [run_as_function]; [fcode] is [self._run_object.__code__] and [target] is
    what the call [self._run_object( *args, **kwargs)] does. *)
Definition run_as_function (fcode : code) (target : program) (w : world)
    : pyresult nat * world :=
  let '(prof, r, w') :=
    with_tracker (fun prof w =>
      let w := tracker_add_code prof fcode w in
      let w := compute_mem_overhead prof w in
      exec_program target w) w in
  (do _ <- r; Ok prof, w').

(** The object to profile, by the run mode that [get_run_dispatcher] of
    [base_profile.BaseProfile] selects for it. *)
Inductive run_object : Type :=
  | PackagePath (pkg_code : pyresult (list code)) (target : program)
  | ModuleFile (opened : option exn) (compiled : pyresult code) (target : program)
  | PackageInNamespace (pkg_code : pyresult (list code)) (target : program)
  | FunctionObject (fcode : code) (target : program).

Definition run_dispatcher (o : run_object) : world -> pyresult nat * world :=
  match o with
  | PackagePath pkg_code target => run_as_package_path pkg_code target
  | ModuleFile opened compiled target => run_as_module opened compiled target
  | PackageInNamespace pkg_code target => run_as_package_in_namespace pkg_code target
  | FunctionObject fcode target => run_as_function fcode target
  end.

(** The dictionary that [MemoryProfile.run] returns. *)
Record profile_result : Type := ProfileResult {
  objectName : string;
  codeEvents : list row;
  totalEvents : nat;
  objectsCount : list (string * Z)
}.

(** The counts of [run] from its two snapshots:
    [result_obj_count] after [result_obj_count[list] -= 1]. *)
Definition result_obj_count (new_objects existing_objects : list pyobject) : counter :=
  let new_obj_count := _get_obj_count_difference new_objects existing_objects in
  let result_obj_count := counter_sub new_obj_count obj_overhead in
  counter_set result_obj_count list_type (counter_get result_obj_count list_type - 1).

(** Reading the [code_events] property of the tracker [prof]. *)
Definition read_code_events (prof : nat) (w : world) : pyresult (list row) * world :=
  match trackers w !! prof with
  | Some t =>
      let '(r, t') := code_events t in
      (r, set_trackers (<[prof := t']> (trackers w)) w)
  | None => (Raise (OtherError "AttributeError"), w)
  end.

(** [MemoryProfile.run].  [existing_objects] and [new_objects] are the two
    results of [_get_in_memory_objects()], before and after the run. *)
Definition run (object_name : string) (o : run_object)
    (existing_objects new_objects : list pyobject) (w : world)
    : pyresult profile_result * world :=
  let '(r, w) := run_dispatcher o w in
  match r with
  | Raise e => (Raise e, w)
  | Ok prof =>
      match _format_obj_count (result_obj_count new_objects existing_objects) with
      | Raise e => (Raise e, w)
      | Ok pretty_obj_count =>
          let '(r1, w) := read_code_events prof w in
          match r1 with
          | Raise e => (Raise e, w)
          | Ok events =>
              let '(r2, w) := read_code_events prof w in
              match r2 with
              | Raise e => (Raise e, w)
              | Ok events' =>
                  (Ok (ProfileResult object_name events (length events')
                         pretty_obj_count), w)
              end
          end
      end
  end.

(** * Notions used to state the properties *)

(** ** The coalescing pass *)

(** The baseline-corrected value of a raw event, for the baseline [o]. *)
Definition corrected (o : Z) (ev : raw_event) : Q := mem_in_mb (ev_mem ev) o.

(** The row appended for the raw event at log position [i] (0-based). *)
Definition row_of (o : Z) (i : nat) (ev : raw_event) : row :=
  new_row i (ev_lineno ev) (corrected o ev) (ev_func ev) (ev_fname ev).

(** One row per raw event, numbered from [i + 1]. *)
Fixpoint rows_from (o : Z) (i : nat) (evs : list raw_event) : list row :=
  match evs with
  | [] => []
  | ev :: rest => row_of o i ev :: rows_from o (S i) rest
  end.

Definition emitted (o : Z) (r : row) : Prop := exists i ev, r = row_of o i ev.

Definition same_place (a b : raw_event) : Prop :=
  ev_lineno a = ev_lineno b /\ ev_func a = ev_func b /\ ev_fname a = ev_fname b.

(** [run] is a maximal run of the log [pre ++ run ++ post]: it is not empty,
    its events share one place, and the events next to it are elsewhere. *)
Definition maximal_run (pre run post : list raw_event) : Prop :=
  exists ev,
    head run = Some ev /\
    Forall (same_place ev) run /\
    (forall p, last pre = Some p -> ~ same_place ev p) /\
    (forall q, head post = Some q -> ~ same_place ev q).

Definition qmax (a b : Q) : Q := if Qle_bool a b then b else a.

(** The largest baseline-corrected value of a run. *)
Definition max_corrected (o : Z) (run : list raw_event) : Q :=
  match run with
  | [] => 0%Q
  | ev :: rest => fold_left qmax (map (corrected o) rest) (corrected o ev)
  end.

(** The rows emitted for a run are the rows whose sequence index, cell 0, is
    the 1-based log position of one of its events. *)
Definition in_run (pre run : list raw_event) (r : row) : bool :=
  match r !! 0%nat with
  | Some (PyInt k) =>
      (Z.of_nat (length pre) <? k) && (k <=? Z.of_nat (length pre + length run))
  | _ => false
  end.

Definition produced_for (pre run : list raw_event) (rows : list row) : list row :=
  List.filter (in_run pre run) rows.

(** What C1 asks of the rows of a run. *)
Definition one_event_with_maximum (o : Z) (pre run : list raw_event)
    (rows : list row) : Prop :=
  exists r, produced_for pre run rows = [r] /\
            r !! 2%nat = Some (PyFloat (max_corrected o run)).

(** No event of the run has a larger corrected value than the one before. *)
Definition non_increasing (o : Z) (run : list raw_event) : Prop :=
  forall i a b, run !! i = Some a -> run !! S i = Some b ->
                (corrected o b <= corrected o a)%Q.


(** ** Example inputs *)

(** A log of two events at one place whose second value is the smaller one. *)
Definition falling_log : list raw_event :=
  [RawEvent 7 5242880 "f" "a.py"; RawEvent 7 3145728 "f" "a.py"].

Definition falling_tracker : tracker := Tracker ∅ falling_log None [] (Some 0).


(** ** The heap census *)

(** The count of a type in a snapshot, as [_get_obj_count_difference] takes
    it: frames left out, duplicates removed. *)
Definition census (objects : list pyobject) : counter :=
  _get_object_count_by_type (_process_in_memory_objects objects).

(** What C3 asks of the difference: the signed elementwise subtraction. *)
Definition signed_difference (objs1 objs2 : list pyobject) : Prop :=
  forall t, counter_get (_get_obj_count_difference objs1 objs2) t
            = counter_get (census objs1) t - counter_get (census objs2) t.

(** Snapshots of a run whose target released three lists it had found. *)
Definition lists_released_before : list pyobject :=
  [PyObject 1 list_type; PyObject 2 list_type; PyObject 3 list_type;
   PyObject 4 dict_type].

Definition lists_released_after : list pyobject :=
  [PyObject 4 dict_type; PyObject 10 list_type; PyObject 11 list_type;
   PyObject 12 tracker_type; PyObject 13 deque_type; PyObject 14 set_type;
   PyObject 15 dict_type; PyObject 16 dict_type].

(** ** Display formatting *)

Definition nonzero (e : pytype * Z) : bool := negb (snd e =? 0).

Definition has_count (k : Z) {A : Type} (e : A * Z) : bool := snd e =? k.

(** The formatted entry [ne] shows the census entry [e]. *)
Definition renders (e : pytype * Z) (ne : string * Z) : Prop :=
  type_display_name (fst e) = Ok (fst ne) /\ snd ne = snd e.

(** [repr] of the type contains a match of the pattern. *)
Definition repr_matches (t : pytype) : Prop := is_Some (first_match (ty_repr t)).

(** Descending by count. *)
Definition count_ge (a b : string * Z) : Prop := snd b <= snd a.

(** The number of captured groups of a pattern. *)
Fixpoint groups_of (p : list re_item) : nat :=
  match p with
  | [] => 0
  | Lit _ :: p' => groups_of p'
  | PlusGroup _ :: p' => S (groups_of p')
  end.

(** A type whose metaclass prints it in its own way. *)
Definition odd_type : pytype := PyType 40 "Shape[circle]".

(** A run of a function that keeps three instances of [odd_type]. *)
Definition initial_world : world := World None [] [] 52428800 41943040.

Definition keeper_code : code := Code 1 "keep" "shapes.py" [].

Definition keeper_target : program :=
  Program [Line keeper_code 2; Rss 53477376; Line keeper_code 3] None.

Definition keeper_after : list pyobject :=
  [PyObject 20 odd_type; PyObject 21 odd_type; PyObject 22 odd_type;
   PyObject 10 list_type; PyObject 11 list_type;
   PyObject 12 tracker_type; PyObject 13 deque_type; PyObject 14 set_type;
   PyObject 15 dict_type; PyObject 16 dict_type].

(** A function that empties a registry of three lists and keeps nothing. *)
Definition releaser_code : code := Code 2 "release" "registry.py" [].

Definition releaser_target : program :=
  Program [Line releaser_code 5; Rss 52420000; Line releaser_code 6] None.

(** A tracker after a run that logged two lines. *)
Definition logged_tracker : tracker :=
  Tracker ∅ [RawEvent 1 52428800 "<module>" "a.py"; RawEvent 2 53477376 "<module>" "a.py"]
    None [] (Some 10485760).

(** ** Tracer scopes *)

(** The hook that the tracker [prof] took down at its creation. *)
Definition original_of (prof : nat) (w : world) : option (option tracefn) :=
  _original_trace_function <$> (trackers w !! prof).

(** The body of a scope does not assign [_original_trace_function]. *)
Definition keeps_original {A : Type} (body : nat -> world -> pyresult A * world) : Prop :=
  forall prof w, original_of prof (snd (body prof w)) = original_of prof w.

(** The hook of a tracker is installed. *)
Definition scope_active (w : world) : Prop :=
  exists tid, sys_trace w = Some (TrackerTrace tid) /\ (tid < length (trackers w))%nat.

(** What C6 asks of an entry into a scope from [w]: a failure, and the
    state left as it was. *)
Definition rejected {A : Type} (out : pyresult A * world) (w : world) : Prop :=
  (exists e, fst out = Raise e) /\ snd out = w.

(** The target cannot be loaded or compiled, and fails with [e]. *)
Definition load_failure (o : run_object) (e : exn) : Prop :=
  match o with
  | PackagePath pkg_code _ => pkg_code = Raise e
  | PackageInNamespace pkg_code _ => pkg_code = Raise e
  | ModuleFile opened compiled _ =>
      opened = Some e \/ (opened = None /\ compiled = Raise e)
  | FunctionObject _ _ => False
  end.

(** What C8 asks of such a run: the failure, and no tracker state touched. *)
Definition fails_fast (o : run_object) (e : exn) (w : world) : Prop :=
  run_dispatcher o w = (Raise e, w).

(** A process in which the tracker of a first profiling run is active. *)
Definition outer_active_world : world :=
  let '(prof, w) := __init__ initial_world in
  compute_mem_overhead prof (tracker_add_code prof keeper_code (__enter__ prof w)).

(** A target that raises after its first line. *)
Definition failing_target : program :=
  Program [Line keeper_code 2] (Some (OtherError "ValueError")).

(** A target that calls [sys.exit()] after two lines. *)
Definition exiting_target : program :=
  Program [Line keeper_code 2; Rss 53477376; Line keeper_code 3] (Some SystemExit).

(** A log of two events at one place whose second value is the larger one. *)
Definition rising_log : list raw_event :=
  [RawEvent 7 3145728 "f" "a.py"; RawEvent 7 5242880 "f" "a.py"].

(** * Notions for the further properties *)

(** ** Snapshots *)

Definition ids_of (objects : list pyobject) : list N := map obj_id objects.

(** How many objects of a snapshot have the type [t]. *)
Definition count_type (t : pytype) (objects : list pyobject) : nat :=
  length (List.filter (fun obj => bool_decide (obj_type obj = t)) objects).

(** How many times [t] occurs in a list of types. *)
Definition occurrences (t : pytype) (elems : list pytype) : nat :=
  length (List.filter (fun t' => bool_decide (t' = t)) elems).

(** The sum of the counts of a counter. *)
Definition counter_total (c : counter) : Z := fold_right Z.add 0 (map snd c).

(** The objects after the first whose [id] is not that of [obj]. *)
Definition others_than (obj : pyobject) (objects : list pyobject) : list pyobject :=
  List.filter (fun x => negb (N.eqb (obj_id x) (obj_id obj))) objects.

(** ** Code objects *)

(** A code object and all the code objects nested in it. *)
Fixpoint subcodes (c : code) : list code :=
  match c with
  | Code _ _ _ consts => c :: flat_map subcodes consts
  end.

Fixpoint code_size (c : code) : nat :=
  match c with
  | Code _ _ _ consts => S (fold_right (fun sub n => (code_size sub + n)%nat) 0%nat consts)
  end.

(** Code objects are members of [_all_code] by value: inside [c], two code
    objects with one identity are the same code object. *)
Definition consistent (c : code) : Prop :=
  forall n m, n ∈ subcodes c -> m ∈ subcodes c -> co_id n = co_id m -> n = m.

(** Whatever part of [c] the set holds, it holds with all that is nested in
    it, as after earlier calls of [add_code]. *)
Definition closed_under (c : code) (all_code : gset N) : Prop :=
  forall n, n ∈ subcodes c -> co_id n ∈ all_code ->
            forall d, d ∈ subcodes n -> co_id d ∈ all_code.

(** A module with a function and a class that has one method. *)
Definition sample_module : code :=
  Code 10 "<module>" "m.py"
    [Code 11 "f" "m.py" []; Code 12 "K" "m.py" [Code 13 "method" "m.py" []]].

(** ** The raw log of a run *)

(** The target never calls [sys.settrace] itself. *)
Definition no_settrace (steps : list step) : Prop :=
  Forall (fun s => match s with SetTrace _ => False | _ => True end) steps.

(** The events that a tracker with the registered code [all_code] logs for
    the steps of a target, when the resident size is [mem] at the start:
    one per line reached in registered code, with the resident size of
    that moment. *)
Fixpoint trace_of (all_code : gset N) (mem : Z) (steps : list step) : list raw_event :=
  match steps with
  | [] => []
  | Line c lineno :: rest =>
      (if bool_decide (co_id c ∈ all_code)
       then [RawEvent lineno mem (co_name c) (co_filename c)] else [])
      ++ trace_of all_code mem rest
  | Rss bytes :: rest => trace_of all_code bytes rest
  | SetTrace _ :: rest => trace_of all_code mem rest
  end.

(** What a run mode registers and runs when its target loads. *)
Definition loaded (o : run_object) : option (gset N * program) :=
  match o with
  | PackagePath (Ok codes) target =>
      Some (fold_left (fun s c => add_code c s) codes ∅, target)
  | PackageInNamespace (Ok codes) target =>
      Some (fold_left (fun s c => add_code c s) codes ∅, target)
  | ModuleFile None (Ok c) target => Some (add_code c ∅, target)
  | FunctionObject fcode target => Some (add_code fcode ∅, target)
  | _ => None
  end.

(** A target with a line in code that is not registered. *)
Definition mixed_target : program :=
  Program [Line keeper_code 2; Rss 53477376; Line releaser_code 5; Line keeper_code 3]
    (Some (OtherError "ValueError")).

(** The state in which a run mode starts its target: a new tracker with the
    code [all_code] registered and the baseline computed, and its hook
    installed. *)
Definition scope_started (all_code : gset N) (w : world) : world :=
  World (Some (TrackerTrace (length (trackers w))))
    (settrace_calls w ++ [Some (TrackerTrace (length (trackers w)))])
    (trackers w ++ [Tracker all_code [] (sys_trace w) []
                      (Some (rss w - initial_rss_size w))])
    (rss w) (initial_rss_size w).

(** The tracker that a run leaves behind. *)
Definition tracker_after (all_code : gset N) (target : program) (w : world) : tracker :=
  Tracker all_code (trace_of all_code (rss w) (prog_steps target)) (sys_trace w) []
    (Some (rss w - initial_rss_size w)).

(** The baseline of the tracker [prof]. *)
Definition overhead_of (prof : nat) (w : world) : option (option Z) :=
  mem_overhead <$> (trackers w !! prof).

(** Reading [code_events] of such a tracker does not raise. *)
Definition readable (t : tracker) : Prop :=
  is_Some (mem_overhead t) \/ _events_list t = [].

(** A class of the target, and a snapshot with a thousand instances of it
    beside what the profiler itself retains. *)
Definition point_type : pytype := PyType 50 "<class '__main__.Point'>".

Definition thousand_points : list pyobject :=
  map (fun i => PyObject (1000 + N.of_nat i) point_type) (seq 0 1000)
  ++ lists_released_after.

(** What the run of [releaser_target] returns. *)
Definition releaser_result : profile_result :=
  ProfileResult "release"
    [[PyInt 1; PyInt 5; PyFloat (41943040 # 1048576); PyStr "release";
      PyStr "registry.py"];
     [PyInt 2; PyInt 6; PyFloat (41934240 # 1048576); PyStr "release";
      PyStr "registry.py"]]
    2 [("list", -1)].

(** What the run of [keeper_target] returns when the snapshot after it is
    [thousand_points]. *)
Definition points_result : profile_result :=
  ProfileResult "keep"
    [[PyInt 1; PyInt 2; PyFloat (41943040 # 1048576); PyStr "keep"; PyStr "shapes.py"];
     [PyInt 2; PyInt 3; PyFloat (42991616 # 1048576); PyStr "keep"; PyStr "shapes.py"]]
    2 [("__main__.Point", 1000); ("dict", 1)].



(** A tracker that logged a line before its baseline was computed. *)
Definition unprepared_tracker : tracker :=
  Tracker ∅ [RawEvent 1 52428800 "<module>" "a.py"] None [] None.

(** The processed events of the tracker [prof]. *)
Definition resulting_of (prof : nat) (w : world) : option (list row) :=
  _resulting_events <$> (trackers w !! prof).

(** A row of [codeEvents] with the sequence index [k]. *)
Definition event_row (k : Z) (r : row) : Prop :=
  exists lineno mem_mb func fname,
    r = [PyInt k; PyInt lineno; PyFloat mem_mb; PyStr func; PyStr fname].

(** What the run of [keeper_target] returns in module mode. *)
Definition keeper_result : profile_result :=
  ProfileResult "keep"
    [[PyInt 1; PyInt 2; PyFloat (41943040 # 1048576); PyStr "keep"; PyStr "shapes.py"];
     [PyInt 2; PyInt 3; PyFloat (42991616 # 1048576); PyStr "keep"; PyStr "shapes.py"]]
    2 [("dict", 1)].

(** The resident size after the steps of a target. *)
Definition final_rss (mem : Z) (steps : list step) : Z :=
  fold_left (fun m s => match s with Rss bytes => bytes | _ => m end) steps mem.

(** * Properties *)

(** ** The coalescing pass *)

Section Coalescing.

Variable o : Z.

(** Cell 2 of an emitted row is a float and [func] is a string: the second
    conjunct of the test never holds, whatever the first one says. *)
Lemma coalesce_test_row_of i ev lineno mem_mb func fname :
  coalesce_test (row_of o i ev) lineno mem_mb func fname = Ok false.
Proof.
  unfold coalesce_test, row_of, new_row, getitem; simpl.
  destruct (Z.of_nat i + 1 =? lineno); reflexivity.
Qed.

Lemma code_events_step_emitted acc i ev :
  Forall (emitted o) acc ->
  code_events_step (Some o) acc i ev = Ok (acc ++ [row_of o i ev]).
Proof.
  intros Hacc. unfold code_events_step.
  destruct (last acc) as [r|] eqn:Hlast; [|reflexivity].
  assert (Hr : emitted o r).
  { apply last_Some in Hlast as [acc' ->].
    apply Forall_app in Hacc as [_ Hr]. by inversion Hr. }
  destruct Hr as (j & ev' & ->).
  by rewrite coalesce_test_row_of.
Qed.

Lemma code_events_loop_rows evs : forall i acc,
  Forall (emitted o) acc ->
  code_events_loop (Some o) i evs acc = (acc ++ rows_from o i evs, None).
Proof.
  induction evs as [|ev rest IH]; intros i acc Hacc; cbn [code_events_loop rows_from].
  - by rewrite app_nil_r.
  - rewrite code_events_step_emitted by done.
    rewrite IH.
    + by rewrite <- app_assoc.
    + apply Forall_app; split; [done|].
      constructor; [by exists i, ev | constructor].
Qed.

Lemma rows_from_app i evs1 evs2 :
  rows_from o i (evs1 ++ evs2) = rows_from o i evs1 ++ rows_from o (i + length evs1) evs2.
Proof.
  revert i; induction evs1 as [|ev rest IH]; intros i; simpl.
  - by rewrite Nat.add_0_r.
  - rewrite IH. by replace (S i + length rest)%nat with (i + S (length rest))%nat by lia.
Qed.

Lemma length_rows_from i evs : length (rows_from o i evs) = length evs.
Proof. revert i; induction evs; intros; simpl; auto. Qed.

End Coalescing.

(** A first read of [code_events] on a tracker whose baseline is computed. *)
Lemma code_events_first_read t o :
  _resulting_events t = [] ->
  mem_overhead t = Some o ->
  code_events t =
    (Ok (rows_from o 0 (_events_list t)),
     Tracker (_all_code t) (_events_list t) (_original_trace_function t)
       (rows_from o 0 (_events_list t)) (mem_overhead t)).
Proof.
  intros Hres Ho. unfold code_events. rewrite Hres, Ho.
  rewrite code_events_loop_rows by constructor. reflexivity.
Qed.

(** *** The maximum of a run *)

Lemma qmax_cases a b : qmax a b = a \/ qmax a b = b.
Proof. unfold qmax; destruct (Qle_bool a b); auto. Qed.

Lemma qmax_ge_l a b : (a <= qmax a b)%Q.
Proof.
  unfold qmax; destruct (Qle_bool a b) eqn:E.
  - by apply Qle_bool_iff.
  - apply Qle_refl.
Qed.

Lemma qmax_ge_r a b : (b <= qmax a b)%Q.
Proof.
  unfold qmax; destruct (Qle_bool a b) eqn:E.
  - apply Qle_refl.
  - destruct (Qlt_le_dec b a) as [H|H].
    + by apply Qlt_le_weak.
    + apply Qle_bool_iff in H. congruence.
Qed.

Lemma fold_qmax_ge l : forall a,
  (a <= fold_left qmax l a)%Q /\ Forall (fun x => (x <= fold_left qmax l a)%Q) l.
Proof.
  induction l as [|x l IH]; intros a; simpl.
  - split; [apply Qle_refl | constructor].
  - destruct (IH (qmax a x)) as [H1 H2]. split.
    + eapply Qle_trans; [apply qmax_ge_l | exact H1].
    + constructor; [|exact H2].
      eapply Qle_trans; [apply qmax_ge_r | exact H1].
Qed.

Lemma fold_qmax_in l : forall a, fold_left qmax l a = a \/ In (fold_left qmax l a) l.
Proof.
  induction l as [|x l IH]; intros a; simpl; [by left|].
  destruct (IH (qmax a x)) as [H|H]; [|by right; right].
  rewrite H. destruct (qmax_cases a x) as [-> | ->]; [by left | by right; left].
Qed.

Lemma max_corrected_ge o run ev :
  ev ∈ run -> (corrected o ev <= max_corrected o run)%Q.
Proof.
  destruct run as [|e0 rest]; intros Hin; [by apply elem_of_nil in Hin|].
  unfold max_corrected.
  destruct (fold_qmax_ge (map (corrected o) rest) (corrected o e0)) as [H1 H2].
  apply elem_of_cons in Hin as [-> | Hin]; [done|].
  rewrite Forall_forall in H2. apply H2.
  apply list_elem_of_In, in_map. by apply list_elem_of_In.
Qed.

Lemma max_corrected_in o run :
  run <> [] -> exists ev, ev ∈ run /\ max_corrected o run = corrected o ev.
Proof.
  destruct run as [|e0 rest]; [done|]; intros _.
  unfold max_corrected.
  destruct (fold_qmax_in (map (corrected o) rest) (corrected o e0)) as [H|H].
  - exists e0. split; [apply list_elem_of_here | done].
  - apply in_map_iff in H as (ev & Hev & Hin).
    exists ev. split; [|done].
    apply elem_of_cons; right. by apply list_elem_of_In.
Qed.

(** The rows of [rows_from] carry the positions [i + 1 .. i + length evs]. *)
Lemma rows_from_index o evs : forall i,
  Forall (fun r => exists k, r !! 0%nat = Some (PyInt k) /\
                   Z.of_nat i < k <= Z.of_nat (i + length evs))
         (rows_from o i evs).
Proof.
  induction evs as [|ev rest IH]; intros i; simpl; constructor.
  - exists (Z.of_nat i + 1). split; [done | lia].
  - eapply Forall_impl; [apply IH|].
    intros r (k & Hk & Hr). exists k. split; [done | lia].
Qed.

Lemma filter_all {A} (p : A -> bool) l :
  Forall (fun x => p x = true) l -> List.filter p l = l.
Proof. induction 1 as [|x l Hx _ IH]; simpl; [done|]. by rewrite Hx, IH. Qed.

Lemma filter_none {A} (p : A -> bool) l :
  Forall (fun x => p x = false) l -> List.filter p l = [].
Proof. induction 1 as [|x l Hx _ IH]; simpl; [done|]. by rewrite Hx. Qed.

Lemma produced_for_rows_from o pre run post :
  produced_for pre run (rows_from o 0 (pre ++ run ++ post))
  = rows_from o (length pre) run.
Proof.
  unfold produced_for.
  rewrite !rows_from_app, !List.filter_app. simpl.
  rewrite (filter_none _ (rows_from o 0 pre)), (filter_all _ (rows_from o _ run)),
    (filter_none _ (rows_from o _ post)).
  - by rewrite app_nil_r.
  - eapply Forall_impl; [apply rows_from_index|].
    intros r (k & Hk & Hr). unfold in_run. rewrite Hk.
    apply andb_false_iff; right. apply Z.leb_gt. lia.
  - eapply Forall_impl; [apply rows_from_index|].
    intros r (k & Hk & Hr). unfold in_run. rewrite Hk.
    apply andb_true_iff; split; [apply Z.ltb_lt | apply Z.leb_le]; lia.
  - eapply Forall_impl; [apply rows_from_index|].
    intros r (k & Hk & Hr). unfold in_run. rewrite Hk.
    apply andb_false_iff; left. apply Z.ltb_ge. simpl in Hr. lia.
Qed.

Lemma rows_from_cells o evs : forall i,
  Forall (fun r => exists ev, ev ∈ evs /\
                   r !! 1%nat = Some (PyInt (ev_lineno ev)) /\
                   r !! 2%nat = Some (PyFloat (corrected o ev)) /\
                   r !! 3%nat = Some (PyStr (ev_func ev)) /\
                   r !! 4%nat = Some (PyStr (ev_fname ev)))
         (rows_from o i evs).
Proof.
  induction evs as [|ev rest IH]; intros i; simpl; constructor.
  - exists ev. split; [apply list_elem_of_here | done].
  - eapply Forall_impl; [apply IH|].
    intros r (ev' & Hin & Hr). exists ev'. split; [|done].
    by apply list_elem_of_further.
Qed.

Lemma rows_from_has o evs ev : forall i,
  ev ∈ evs ->
  Exists (fun r => r !! 2%nat = Some (PyFloat (corrected o ev))) (rows_from o i evs).
Proof.
  induction evs as [|e rest IH]; intros i Hin; [by apply elem_of_nil in Hin|].
  simpl. apply elem_of_cons in Hin as [-> | Hin].
  - by apply Exists_cons_hd.
  - apply Exists_cons_tl. by apply IH.
Qed.

(** *** Maximal runs *)

Lemma maximal_run_whole_log ev rest :
  Forall (same_place ev) rest -> maximal_run [] (ev :: rest) [].
Proof.
  intros H. exists ev. repeat split; try done.
  constructor; [by repeat split | done].
Qed.

(** C1, refuted as stated: the two events of [falling_log] form one maximal
    run, and the pass emits two rows for it, not one. *)
Lemma monotonic_max_counterexample :
  maximal_run [] falling_log [] /\
  exists rows,
    fst (code_events falling_tracker) = Ok rows /\
    ~ one_event_with_maximum 0 [] falling_log rows.
Proof.
  split.
  - apply maximal_run_whole_log. by repeat constructor.
  - eexists. split; [vm_compute; reflexivity|].
    intros (r & Hr & _). vm_compute in Hr. discriminate.
Qed.

(** C1, amended: for every maximal run of events of one place, a first read
    of [code_events] emits at least one row for the run; each such row has
    the line, unit and file of the run and the baseline-corrected value of
    one of its events, none above the maximum of the run; the maximum is
    the value of one of the rows; and a run whose values never rise gets
    one row per raw event. *)
Theorem monotonic_max_of_run t o pre run post :
  _resulting_events t = [] ->
  mem_overhead t = Some o ->
  _events_list t = pre ++ run ++ post ->
  maximal_run pre run post ->
  exists rows,
    fst (code_events t) = Ok rows /\
    produced_for pre run rows <> [] /\
    Forall (fun r => exists ev, ev ∈ run /\
                     r !! 1%nat = Some (PyInt (ev_lineno ev)) /\
                     r !! 2%nat = Some (PyFloat (corrected o ev)) /\
                     r !! 3%nat = Some (PyStr (ev_func ev)) /\
                     r !! 4%nat = Some (PyStr (ev_fname ev)) /\
                     (corrected o ev <= max_corrected o run)%Q)
           (produced_for pre run rows) /\
    Exists (fun r => r !! 2%nat = Some (PyFloat (max_corrected o run)))
           (produced_for pre run rows) /\
    (non_increasing o run ->
     length (produced_for pre run rows) = length run).
Proof.
  intros Hres Ho Hlog (ev0 & Hhead & _).
  exists (rows_from o 0 (_events_list t)).
  rewrite (code_events_first_read t o Hres Ho). split; [done|].
  rewrite Hlog, produced_for_rows_from.
  assert (Hne : run <> []) by (by destruct run).
  repeat split.
  - destruct run; [done|]. discriminate.
  - eapply Forall_impl; [apply rows_from_cells|].
    intros r (ev & Hin & H1 & H2 & H3 & H4).
    exists ev. repeat split; try done. by apply max_corrected_ge.
  - destruct (max_corrected_in o run Hne) as (ev & Hin & ->).
    by apply rows_from_has.
  - intros _. apply length_rows_from.
Qed.

Lemma monotonic_max_of_run_witness :
  exists rows,
    fst (code_events falling_tracker) = Ok rows /\
    produced_for [] falling_log rows <> [] /\
    Forall (fun r => exists ev, ev ∈ falling_log /\
                     r !! 1%nat = Some (PyInt (ev_lineno ev)) /\
                     r !! 2%nat = Some (PyFloat (corrected 0 ev)) /\
                     r !! 3%nat = Some (PyStr (ev_func ev)) /\
                     r !! 4%nat = Some (PyStr (ev_fname ev)) /\
                     (corrected 0 ev <= max_corrected 0 falling_log)%Q)
           (produced_for [] falling_log rows) /\
    Exists (fun r => r !! 2%nat = Some (PyFloat (max_corrected 0 falling_log)))
           (produced_for [] falling_log rows) /\
    (non_increasing 0 falling_log ->
     length (produced_for [] falling_log rows) = length falling_log).
Proof.
  apply (monotonic_max_of_run falling_tracker 0 [] falling_log []).
  - reflexivity.
  - reflexivity.
  - reflexivity.
  - exists (RawEvent 7 5242880 "f" "a.py").
    split; [reflexivity|]. split; [repeat constructor|].
    split; intros ev Hev; discriminate Hev.
Defined.

(** ** [Counter] arithmetic *)

Lemma counter_get_set c t v t' :
  counter_get (counter_set c t v) t' = if bool_decide (t = t') then v else counter_get c t'.
Proof.
  induction c as [|[k n] c IH]; simpl.
  - repeat case_bool_decide; congruence.
  - destruct (bool_decide (k = t)) eqn:E; simpl.
    + apply bool_decide_eq_true in E as ->.
      repeat case_bool_decide; congruence.
    + apply bool_decide_eq_false in E.
      rewrite IH. repeat case_bool_decide; congruence.
Qed.

Lemma counter_mem_false_get c t : counter_mem c t = false -> counter_get c t = 0.
Proof.
  induction c as [|[k n] c IH]; simpl; [done|].
  intros H. apply orb_false_iff in H as [H1 H2].
  rewrite H1. auto.
Qed.

Lemma counter_mem_keys c t : counter_mem c t = true <-> t ∈ map fst c.
Proof.
  induction c as [|[k n] c IH]; simpl.
  - split; [done | by intros H%elem_of_nil].
  - rewrite orb_true_iff, IH, elem_of_cons, bool_decide_eq_true.
    split; (intros [H|H]; [left | right]); congruence.
Qed.

Lemma counter_set_keys c t v :
  map fst (counter_set c t v) = if counter_mem c t then map fst c else map fst c ++ [t].
Proof.
  induction c as [|[k n] c IH]; simpl; [done|].
  destruct (bool_decide (k = t)) eqn:E; simpl; [done|].
  rewrite IH. by destruct (counter_mem c t).
Qed.

Lemma counter_set_NoDup c t v : NoDup (map fst c) -> NoDup (map fst (counter_set c t v)).
Proof.
  intros H. rewrite counter_set_keys.
  destruct (counter_mem c t) eqn:E; [done|].
  apply NoDup_app. split; [done|]. split; [ | apply NoDup_singleton].
  intros x Hx ->%list_elem_of_singleton.
  apply counter_mem_keys in Hx. congruence.
Qed.

Lemma counter_set_Forall (P : pytype * Z -> Prop) c t v :
  Forall P c -> P (t, v) -> Forall P (counter_set c t v).
Proof.
  intros Hc Hv. induction Hc as [|[k n] c Hk Hc IH]; simpl.
  - by constructor.
  - destruct (bool_decide (k = t)) eqn:E.
    + apply bool_decide_eq_true in E as ->. by constructor.
    + by constructor.
Qed.

Lemma counter_of_NoDup elems : NoDup (map fst (counter_of elems)).
Proof.
  unfold counter_of.
  assert (H : forall c, NoDup (map fst c) ->
            NoDup (map fst (fold_left
              (fun c t => counter_set c t (counter_get c t + 1)) elems c))).
  { induction elems as [|t elems IH]; intros c Hc; simpl; [done|].
    apply IH. by apply counter_set_NoDup. }
  apply H. constructor.
Qed.

Section CounterSub.

Variables self other : counter.

Lemma fold_step1_get a : forall acc t,
  NoDup (map fst a) ->
  counter_get (fold_left (sub_step1 other) a acc) t =
    if counter_mem a t && (0 <? counter_get a t - counter_get other t)
    then counter_get a t - counter_get other t
    else counter_get acc t.
Proof.
  induction a as [|[k n] a IH]; intros acc t Hnd; simpl; [done|].
  apply NoDup_cons in Hnd as [Hk Hnd].
  rewrite IH by done. unfold sub_step1; simpl.
  destruct (bool_decide (k = t)) eqn:E; simpl.
  - apply bool_decide_eq_true in E as <-.
    assert (Hm : counter_mem a k = false).
    { destruct (counter_mem a k) eqn:Hm; [|done].
      apply counter_mem_keys in Hm. done. }
    rewrite Hm; simpl.
    destruct (0 <? n - counter_get other k); [|done].
    rewrite counter_get_set. by rewrite bool_decide_eq_true_2.
  - apply bool_decide_eq_false in E.
    destruct (counter_mem a t && (0 <? counter_get a t - counter_get other t)); [done|].
    destruct (0 <? n - counter_get other k); [|done].
    rewrite counter_get_set. by rewrite bool_decide_eq_false_2.
Qed.

Lemma fold_step2_get b : forall acc t,
  NoDup (map fst b) ->
  counter_get (fold_left (sub_step2 self) b acc) t =
    if counter_mem b t && negb (counter_mem self t) && (counter_get b t <? 0)
    then 0 - counter_get b t
    else counter_get acc t.
Proof.
  induction b as [|[k n] b IH]; intros acc t Hnd; simpl; [done|].
  apply NoDup_cons in Hnd as [Hk Hnd].
  rewrite IH by done. unfold sub_step2; simpl.
  destruct (bool_decide (k = t)) eqn:E; simpl.
  - apply bool_decide_eq_true in E as <-.
    assert (Hm : counter_mem b k = false).
    { destruct (counter_mem b k) eqn:Hm; [|done].
      apply counter_mem_keys in Hm. done. }
    rewrite Hm; simpl.
    destruct (negb (counter_mem self k) && (n <? 0)); [|done].
    rewrite counter_get_set. by rewrite bool_decide_eq_true_2.
  - apply bool_decide_eq_false in E.
    destruct (counter_mem b t && negb (counter_mem self t) && (counter_get b t <? 0));
      [done|].
    destruct (negb (counter_mem self k) && (n <? 0)); [|done].
    rewrite counter_get_set. by rewrite bool_decide_eq_false_2.
Qed.

(** [self - other] reads, at every type, as the difference cut off at 0. *)
Lemma counter_sub_get t :
  NoDup (map fst self) -> NoDup (map fst other) ->
  counter_get (counter_sub self other) t
  = Z.max 0 (counter_get self t - counter_get other t).
Proof.
  intros Hs Ho. unfold counter_sub.
  rewrite fold_step2_get, fold_step1_get by done. simpl.
  destruct (counter_mem self t) eqn:Hms; simpl.
  - rewrite andb_false_r; simpl.
    destruct (0 <? counter_get self t - counter_get other t) eqn:E.
    + apply Z.ltb_lt in E. lia.
    + apply Z.ltb_ge in E. lia.
  - rewrite andb_true_r. apply counter_mem_false_get in Hms. rewrite Hms.
    destruct (counter_mem other t) eqn:Hmo; simpl.
    + destruct (counter_get other t <? 0) eqn:E.
      * apply Z.ltb_lt in E. lia.
      * apply Z.ltb_ge in E. lia.
    + apply counter_mem_false_get in Hmo. rewrite Hmo. reflexivity.
Qed.

Lemma fold_step1_inv (P : counter -> Prop) a :
  (forall c t v, P c -> 0 < v -> P (counter_set c t v)) ->
  forall acc, P acc -> P (fold_left (sub_step1 other) a acc).
Proof.
  intros HP. induction a as [|[k n] a IH]; intros acc Hacc; simpl; [done|].
  apply IH. unfold sub_step1; simpl.
  destruct (0 <? n - counter_get other k) eqn:E; [|done].
  apply HP; [done|]. by apply Z.ltb_lt.
Qed.

Lemma fold_step2_inv (P : counter -> Prop) b :
  (forall c t v, P c -> 0 < v -> P (counter_set c t v)) ->
  forall acc, P acc -> P (fold_left (sub_step2 self) b acc).
Proof.
  intros HP. induction b as [|[k n] b IH]; intros acc Hacc; simpl; [done|].
  apply IH. unfold sub_step2; simpl.
  destruct (negb (counter_mem self k) && (n <? 0)) eqn:E; [|done].
  apply andb_true_iff in E as [_ E]. apply Z.ltb_lt in E.
  apply HP; [done | lia].
Qed.

(** Every entry that [self - other] holds is positive. *)
Lemma counter_sub_positive : Forall (fun e => 0 < snd e) (counter_sub self other).
Proof.
  unfold counter_sub.
  apply fold_step2_inv; [ | apply fold_step1_inv; [ | constructor]];
    intros c t v Hc Hv; by apply counter_set_Forall.
Qed.

Lemma counter_sub_NoDup : NoDup (map fst (counter_sub self other)).
Proof.
  unfold counter_sub.
  apply fold_step2_inv; [ | apply fold_step1_inv; [ | constructor]];
    intros c t v Hc Hv; by apply counter_set_NoDup.
Qed.

End CounterSub.

(** ** The subtraction chain of [run] *)

Lemma obj_overhead_NoDup : NoDup (map fst obj_overhead).
Proof. apply counter_set_NoDup, counter_of_NoDup. Qed.

(** After [result_obj_count[list] -= 1] every entry is positive, except
    that the entry of [list] may be 0 or -1. *)
Lemma result_obj_count_entries new existing :
  Forall (fun e => 0 < snd e \/ (fst e = list_type /\ -1 <= snd e))
         (result_obj_count new existing).
Proof.
  unfold result_obj_count.
  set (r := counter_sub _ obj_overhead).
  apply counter_set_Forall.
  - eapply Forall_impl; [apply counter_sub_positive|]. intros e He; by left.
  - right. split; [done|]. simpl.
    assert (0 <= counter_get r list_type); [|lia].
    unfold r. rewrite counter_sub_get; [lia | apply counter_sub_NoDup | apply obj_overhead_NoDup].
Qed.

(** C3, refuted as stated: three lists before and two after give no entry
    for [list], which reads as 0 and not as -1. *)
Lemma signed_difference_counterexample :
  ~ signed_difference lists_released_after lists_released_before.
Proof.
  intros H. specialize (H list_type). vm_compute in H. discriminate.
Qed.

(** C3, amended: the difference of two censuses is the elementwise
    subtraction cut off at zero; it holds positive counts only, so a type
    whose count did not grow has no entry already after the first
    subtraction, and the same holds again after the overhead subtraction;
    only the last step of [run], [result_obj_count[list] -= 1], can leave a
    count of 0 or -1, and only for [list]. *)
Theorem difference_is_truncated objs1 objs2 :
  (forall t, counter_get (_get_obj_count_difference objs1 objs2) t
             = Z.max 0 (counter_get (census objs1) t - counter_get (census objs2) t)) /\
  Forall (fun e => 0 < snd e) (_get_obj_count_difference objs1 objs2) /\
  (forall t, counter_get (counter_sub (_get_obj_count_difference objs1 objs2) obj_overhead) t
             = Z.max 0 (counter_get (_get_obj_count_difference objs1 objs2) t
                        - counter_get obj_overhead t)) /\
  Forall (fun e => 0 < snd e)
         (counter_sub (_get_obj_count_difference objs1 objs2) obj_overhead) /\
  Forall (fun e => 0 < snd e \/ (fst e = list_type /\ -1 <= snd e))
         (result_obj_count objs1 objs2).
Proof.
  split; [|split; [|split; [|split]]].
  - intros t. apply counter_sub_get; apply counter_of_NoDup.
  - apply counter_sub_positive.
  - intros t. apply counter_sub_get; [apply counter_sub_NoDup | apply obj_overhead_NoDup].
  - apply counter_sub_positive.
  - apply result_obj_count_entries.
Qed.

(** ** The stable descending sort *)

Lemma insert_desc_perm x l : Permutation (insert_desc x l) (x :: l).
Proof.
  induction l as [|y l IH]; simpl; [done|].
  destruct (snd x <? snd y); [|done].
  rewrite IH. apply perm_swap.
Qed.

Lemma sorted_desc_perm l : Permutation (sorted_desc l) l.
Proof.
  induction l as [|x l IH]; simpl; [done|].
  rewrite insert_desc_perm. by constructor.
Qed.

Lemma insert_desc_sorted x l :
  StronglySorted count_ge l -> StronglySorted count_ge (insert_desc x l).
Proof.
  induction 1 as [|y l Hl IH Hy]; simpl.
  - repeat constructor.
  - destruct (snd x <? snd y) eqn:E.
    + apply Z.ltb_lt in E. constructor; [done|].
      rewrite Forall_forall. intros z Hz.
      apply list_elem_of_In in Hz.
      apply (Permutation_in _ (insert_desc_perm x l)) in Hz as [<- | Hz].
      * unfold count_ge. lia.
      * rewrite Forall_forall in Hy. apply Hy. by apply list_elem_of_In.
    + apply Z.ltb_ge in E. constructor; [by constructor|].
      constructor; [exact E|].
      eapply Forall_impl; [exact Hy|].
      unfold count_ge. intros z Hz. lia.
Qed.

Lemma sorted_desc_sorted l : StronglySorted count_ge (sorted_desc l).
Proof.
  induction l as [|x l IH]; simpl; [constructor|].
  by apply insert_desc_sorted.
Qed.

(** Inserting leaves the entries of every single count in their order, the
    new entry in front of the others of its count. *)
Lemma insert_desc_stable k x l :
  List.filter (has_count k) (insert_desc x l) = List.filter (has_count k) (x :: l).
Proof.
  induction l as [|y l IH]; simpl; [done|].
  destruct (snd x <? snd y) eqn:E; [|done].
  apply Z.ltb_lt in E. simpl in *. rewrite IH.
  unfold has_count.
  destruct (snd x =? k) eqn:Ex, (snd y =? k) eqn:Ey; try done.
  apply Z.eqb_eq in Ex, Ey. lia.
Qed.

Lemma sorted_desc_stable k l :
  List.filter (has_count k) (sorted_desc l) = List.filter (has_count k) l.
Proof.
  induction l as [|x l IH]; simpl; [done|].
  rewrite insert_desc_stable. simpl. by rewrite IH.
Qed.

(** ** [_format_obj_count] *)

Lemma format_loop_ok items : forall acc out,
  format_loop items acc = Ok out ->
  exists named, out = acc ++ named /\
                Forall2 renders (List.filter nonzero items) named.
Proof.
  induction items as [|[t n] items IH]; intros acc out H; simpl in H.
  - exists []. inversion H. split; [by rewrite app_nil_r | constructor].
  - unfold nonzero at 1. simpl.
    destruct (n =? 0) eqn:E; simpl in *.
    + by apply IH.
    + destruct (type_display_name t) as [name|e] eqn:Hname; simpl in H; [|done].
      apply IH in H as (named & -> & Hn).
      exists ((name, n) :: named). split; [by rewrite <- app_assoc|].
      constructor; [by split | done].
Qed.

Lemma format_loop_total items : forall acc,
  Forall (fun e => nonzero e = true -> is_ok (type_display_name (fst e)) = true) items ->
  exists out, format_loop items acc = Ok out.
Proof.
  induction items as [|[t n] items IH]; intros acc H; simpl.
  - by eexists.
  - apply Forall_cons in H as [Ht H]. unfold nonzero in Ht; simpl in Ht.
    destruct (n =? 0); simpl.
    + by apply IH.
    + destruct (type_display_name t); [|by specialize (Ht eq_refl)].
      simpl. by apply IH.
Qed.

Lemma format_loop_raises items : forall acc,
  ~ Forall (fun e => nonzero e = true -> is_ok (type_display_name (fst e)) = true) items ->
  format_loop items acc = Raise IndexError.
Proof.
  induction items as [|[t n] items IH]; intros acc H; simpl.
  - destruct H. constructor.
  - unfold nonzero in H; simpl in H.
    destruct (n =? 0) eqn:E; simpl.
    + apply IH. intros Hf. apply H. constructor; [|done].
      simpl. rewrite E. done.
    + unfold type_display_name in *.
      destruct (first_match (ty_repr t)) as [[|a [|b [|c g]]]|] eqn:Hm; simpl; try done.
      apply IH. intros Hf. apply H. constructor; [|done].
      simpl. by rewrite Hm.
Qed.

Lemma Forall2_renders_filter k l1 l2 :
  Forall2 renders l1 l2 ->
  Forall2 renders (List.filter (has_count k) l1) (List.filter (has_count k) l2).
Proof.
  induction 1 as [|e ne l1 l2 [Hn Hc] _ IH]; cbn [List.filter]; [constructor|].
  assert (Hk : has_count k ne = has_count k e) by (unfold has_count; by rewrite Hc).
  rewrite Hk. destruct (has_count k e); [|done].
  constructor; [by split | done].
Qed.

Lemma filter_filter_count k (c : counter) :
  List.filter (has_count k) (List.filter nonzero c)
  = List.filter (fun e => has_count k e && nonzero e) c.
Proof.
  induction c as [|e c IH]; simpl; [done|].
  destruct (nonzero e); simpl.
  - rewrite IH. by rewrite andb_true_r.
  - rewrite IH. by rewrite andb_false_r.
Qed.

(** C9: whenever the formatter returns, its list is in descending order of
    count, and for every count [k] the entries with that count are, one for
    one and in the same order, the census entries with count [k] as
    [obj_count.items()] lists them. *)
Theorem format_sorted_stable c out :
  _format_obj_count c = Ok out ->
  StronglySorted count_ge out /\
  forall k, Forall2 renders
              (List.filter (fun e => has_count k e && nonzero e) c)
              (List.filter (has_count k) out).
Proof.
  unfold _format_obj_count. intros H.
  destruct (format_loop c []) as [res|e] eqn:Hres; simpl in H; [|done].
  inversion H; subst out; clear H.
  apply format_loop_ok in Hres as (named & -> & Hn). simpl.
  split; [apply sorted_desc_sorted|].
  intros k. rewrite sorted_desc_stable, <- filter_filter_count.
  by apply Forall2_renders_filter.
Qed.

Lemma format_sorted_stable_witness :
  StronglySorted count_ge [("dict", 5); ("set", 5); ("list", 3)] /\
  forall k, Forall2 renders
              (List.filter (fun e => has_count k e && nonzero e)
                 [(list_type, 3); (dict_type, 5); (deque_type, 0); (set_type, 5)])
              (List.filter (has_count k) [("dict", 5); ("set", 5); ("list", 3)]).
Proof.
  apply (format_sorted_stable
           [(list_type, 3); (dict_type, 5); (deque_type, 0); (set_type, 5)]).
  vm_compute. reflexivity.
Defined.

(** ** The pattern and the types it does not match *)

Lemma plus_group_groups cls rest n :
  (forall s g, rest s = Some g -> length g = n) ->
  forall s taken g, plus_group cls rest s taken = Some g -> length g = S n.
Proof.
  intros Hrest. induction s as [|c s IHs]; intros taken g H; simpl in H; [done|].
  destruct (cls c); [|done].
  destruct (plus_group cls rest s _) as [g'|] eqn:E.
  - inversion H; subst. eapply IHs. exact E.
  - destruct (rest s) as [g'|] eqn:E'; [|done].
    inversion H; subst. simpl. f_equal. eauto.
Qed.

Lemma match_here_groups p : forall s g,
  match_here p s = Some g -> length g = groups_of p.
Proof.
  induction p as [|[c|cls] p IH]; intros s g H; simpl in H.
  - by inversion H.
  - destruct s as [|c' s]; [done|].
    destruct (Ascii.eqb c c'); [|done]. simpl. eauto.
  - simpl. eapply plus_group_groups; [exact IH | exact H].
Qed.

Lemma first_match_unfold s :
  first_match s =
    match match_here regex s with
    | Some groups => Some groups
    | None => match s with String _ s' => first_match s' | EmptyString => None end
    end.
Proof. destruct s; reflexivity. Qed.

Lemma first_match_groups s : forall g, first_match s = Some g -> length g = 2%nat.
Proof.
  induction s as [|c s IH]; intros g H; rewrite first_match_unfold in H.
  - destruct (match_here regex "") as [g'|] eqn:E; [|done].
    inversion H; subst. by apply match_here_groups in E.
  - destruct (match_here regex (String c s)) as [g'|] eqn:E.
    + inversion H; subst. by apply match_here_groups in E.
    + by apply IH.
Qed.

Lemma display_name_ok_iff t :
  is_ok (type_display_name t) = true <-> repr_matches t.
Proof.
  unfold type_display_name, repr_matches.
  destruct (first_match (ty_repr t)) as [g|] eqn:E.
  - pose proof (first_match_groups _ _ E) as Hlen.
    destruct g as [|a [|b [|c g]]]; try done.
    all: split; [by eexists | done].
  - split; [done | by intros [? ?]].
Qed.

Lemma matching_iff (c : counter) :
  Forall (fun e => nonzero e = true -> is_ok (type_display_name (fst e)) = true) c
  <-> Forall (fun e => snd e <> 0 -> repr_matches (fst e)) c.
Proof.
  apply Forall_iff. intros e. rewrite display_name_ok_iff.
  unfold nonzero. rewrite negb_true_iff, Z.eqb_neq. done.
Qed.

Lemma format_loop_ok_names items : forall acc out,
  format_loop items acc = Ok out ->
  Forall (fun e => nonzero e = true -> is_ok (type_display_name (fst e)) = true) items.
Proof.
  induction items as [|[t n] items IH]; intros acc out H; simpl in H; [constructor|].
  unfold nonzero in *; simpl in *.
  destruct (n =? 0) eqn:E; simpl in *.
  - constructor; [simpl; by rewrite E | by eapply IH].
  - destruct (type_display_name t) as [name|e] eqn:Hname; simpl in H; [|done].
    constructor; [simpl; by rewrite Hname | by eapply IH].
Qed.

Lemma format_returns_iff c :
  (exists out, _format_obj_count c = Ok out)
  <-> Forall (fun e => snd e <> 0 -> repr_matches (fst e)) c.
Proof.
  rewrite <- matching_iff. unfold _format_obj_count. split.
  - intros [out H].
    destruct (format_loop c []) as [res|e] eqn:Hres; [|done].
    by eapply format_loop_ok_names.
  - intros Hf. destruct (format_loop_total c [] Hf) as [res ->]. by eexists.
Qed.

Lemma format_raises c :
  ~ Forall (fun e => snd e <> 0 -> repr_matches (fst e)) c ->
  _format_obj_count c = Raise IndexError.
Proof.
  rewrite <- matching_iff. intros Hf. unfold _format_obj_count.
  by rewrite (format_loop_raises c [] Hf).
Qed.

Lemma odd_type_unmatched : ~ repr_matches odd_type.
Proof. intros [g H]. vm_compute in H. discriminate. Qed.

(** C10: the formatter returns exactly when every type with a non-zero
    count has a [repr] that the pattern matches; otherwise [match[0]]
    raises [IndexError], as for a census with [odd_type], and [run] on a
    target that keeps instances of that type raises instead of returning a
    result. *)
Theorem format_needs_matching_repr :
  (forall c, (exists out, _format_obj_count c = Ok out)
             <-> Forall (fun e => snd e <> 0 -> repr_matches (fst e)) c) /\
  (forall c, ~ Forall (fun e => snd e <> 0 -> repr_matches (fst e)) c ->
             _format_obj_count c = Raise IndexError) /\
  ~ repr_matches odd_type /\
  _format_obj_count [(list_type, 3); (odd_type, 2)] = Raise IndexError /\
  fst (run "keep" (FunctionObject keeper_code keeper_target) [] keeper_after
         initial_world) = Raise IndexError.
Proof.
  split; [exact format_returns_iff|].
  split; [exact format_raises|].
  split; [exact odd_type_unmatched|].
  split; vm_compute; reflexivity.
Qed.

(** ** The counts that reach [objectsCount] *)

Lemma run_objects_count name o existing new w res w' :
  run name o existing new w = (Ok res, w') ->
  _format_obj_count (result_obj_count new existing) = Ok (objectsCount res).
Proof.
  unfold run. intros H.
  destruct (run_dispatcher o w) as [[prof|e] w1]; [|done].
  destruct (_format_obj_count _) as [pretty|e]; [|done].
  destruct (read_code_events prof w1) as [[ev1|e] w2]; [|done].
  destruct (read_code_events prof w2) as [[ev2|e] w3]; [|done].
  by inversion H.
Qed.

Lemma Forall2_elem_of_r {A B} (R : A -> B -> Prop) l1 l2 y :
  Forall2 R l1 l2 -> y ∈ l2 -> exists x, x ∈ l1 /\ R x y.
Proof.
  induction 1 as [|x y' l1 l2 Hr _ IH]; intros Hy.
  - by apply elem_of_nil in Hy.
  - apply elem_of_cons in Hy as [-> | Hy].
    + exists x. split; [apply list_elem_of_here | done].
    + destruct (IH Hy) as (x' & Hx' & HR).
      exists x'. split; [by apply list_elem_of_further | done].
Qed.

Lemma format_entries c out :
  _format_obj_count c = Ok out ->
  Forall (fun ne => exists e, e ∈ c /\ nonzero e = true /\ renders e ne) out.
Proof.
  unfold _format_obj_count. intros H.
  destruct (format_loop c []) as [res|e] eqn:Hres; simpl in H; [|done].
  inversion H; subst out; clear H.
  apply format_loop_ok in Hres as (named & -> & Hn). simpl.
  rewrite Forall_forall. intros ne Hne.
  apply list_elem_of_In in Hne.
  apply (Permutation_in _ (sorted_desc_perm named)) in Hne.
  apply list_elem_of_In in Hne.
  destruct (Forall2_elem_of_r _ _ _ _ Hn Hne) as (e & He & Hr).
  exists e. apply list_elem_of_In, filter_In in He as [He Hnz].
  split; [by apply list_elem_of_In | done].
Qed.

(** C2, refuted as stated: the run of [releaser_target] returns a result
    whose [objectsCount] holds the entry [("list", -1)]. *)
Lemma objects_count_counterexample :
  exists res,
    fst (run "release" (FunctionObject releaser_code releaser_target)
           lists_released_before lists_released_after initial_world) = Ok res /\
    objectsCount res = [("list", -1)] /\
    ~ Forall (fun ne => 0 < snd ne) (objectsCount res).
Proof.
  eexists. split; [vm_compute; reflexivity|]. simpl.
  split; [reflexivity|].
  intros H. inversion H as [|? ? Hneg]. simpl in Hneg. lia.
Qed.

(** C2, amended: the formatter drops the types whose count is zero, so no
    entry of [objectsCount] has count 0; every entry is positive, except
    that [list] is listed with -1 when no list count was left for the final
    [-= 1]. *)
Theorem objects_count_entries name o existing new w res w' :
  run name o existing new w = (Ok res, w') ->
  Forall (fun ne => snd ne <> 0 /\ (0 < snd ne \/ ne = ("list", -1)))
         (objectsCount res).
Proof.
  intros H%run_objects_count.
  eapply Forall_impl; [apply (format_entries _ _ H)|].
  intros [name' n] ((t & m) & Hin & Hnz & Hname & Hcount). simpl in *. subst n.
  unfold nonzero in Hnz; simpl in Hnz.
  apply negb_true_iff, Z.eqb_neq in Hnz. split; [done|].
  pose proof (result_obj_count_entries new existing) as Hall.
  rewrite Forall_forall in Hall. destruct (Hall _ Hin) as [Hpos | [Ht Hm]]; simpl in *.
  - by left.
  - subst t. vm_compute in Hname. inversion Hname; subst name'.
    destruct (decide (0 < m)); [by left|]. right. f_equal. lia.
Qed.

Lemma objects_count_entries_witness :
  Forall (fun ne => snd ne <> 0 /\ (0 < snd ne \/ ne = ("list", -1)))
         [("list", -1)].
Proof.
  apply (objects_count_entries "release"
           (FunctionObject releaser_code releaser_target)
           lists_released_before lists_released_after initial_world
           (ProfileResult "release"
              [[PyInt 1; PyInt 5; PyFloat (41943040 # 1048576); PyStr "release";
                PyStr "registry.py"];
               [PyInt 2; PyInt 6; PyFloat (41934240 # 1048576); PyStr "release";
                PyStr "registry.py"]]
              2 [("list", -1)])
           (snd (run "release" (FunctionObject releaser_code releaser_target)
                   lists_released_before lists_released_after initial_world))).
  vm_compute. reflexivity.
Defined.

(** ** Memoization of [code_events] *)

Lemma code_events_cached t r rs :
  _resulting_events t = r :: rs -> code_events t = (Ok (r :: rs), t).
Proof. intros H. unfold code_events. by rewrite H. Qed.

(** A second read gives what the first one gave and leaves the tracker as
    the first one left it, also when the first read raised. *)
Lemma code_events_idempotent t :
  code_events (snd (code_events t)) = code_events t.
Proof.
  destruct t as [ac evs orig res o].
  destruct res as [|r rs]; [|reflexivity].
  destruct o as [o|].
  - rewrite (code_events_first_read (Tracker ac evs orig [] (Some o)) o eq_refl eq_refl).
    simpl. destruct evs as [|ev evs]; reflexivity.
  - destruct evs as [|ev evs]; reflexivity.
Qed.

(** C7: once the baseline is computed, a read of [code_events] returns a
    list, and the next read returns the same list, leaves the tracker
    unchanged and runs no iteration of the coalescing loop. *)
Theorem code_events_memoized t o :
  mem_overhead t = Some o ->
  exists rows t1,
    code_events t = (Ok rows, t1) /\
    code_events t1 = (Ok rows, t1) /\
    code_events_iterations t1 = 0%nat.
Proof.
  intros Ho.
  destruct (_resulting_events t) as [|r rs] eqn:Hres.
  - exists (rows_from o 0 (_events_list t)). eexists.
    rewrite (code_events_first_read t o Hres Ho). split; [reflexivity|].
    destruct (_events_list t) as [|ev evs] eqn:Hevs; simpl.
    + split; [|by unfold code_events_iterations].
      unfold code_events; simpl. by rewrite Ho.
    + split; reflexivity.
  - exists (r :: rs), t. rewrite (code_events_cached t r rs Hres).
    split; [done|]. split; [done|].
    unfold code_events_iterations. by rewrite Hres.
Qed.

Lemma code_events_memoized_witness :
  exists rows t1,
    code_events logged_tracker = (Ok rows, t1) /\
    code_events t1 = (Ok rows, t1) /\
    code_events_iterations t1 = 0%nat.
Proof. apply (code_events_memoized logged_tracker 10485760). reflexivity. Defined.

(** ** Tracer scopes and the trace hook *)

Lemma original_of_update p tid f w :
  (forall t, _original_trace_function (f t) = _original_trace_function t) ->
  original_of p (update_tracker tid f w) = original_of p w.
Proof.
  intros Hf. unfold original_of, update_tracker; simpl.
  destruct (decide (tid = p)) as [->|Hne].
  - rewrite list_lookup_alter_eq. destruct (trackers w !! p); simpl; [by rewrite Hf | done].
  - by rewrite list_lookup_alter_ne.
Qed.

Lemma original_of_add_code p tid c w :
  original_of p (tracker_add_code tid c w) = original_of p w.
Proof. by apply original_of_update. Qed.

Lemma original_of_add_all_code p tid codes : forall w,
  original_of p (add_all_code tid codes w) = original_of p w.
Proof.
  unfold add_all_code. induction codes as [|c codes IH]; intros w; simpl; [done|].
  by rewrite IH, original_of_add_code.
Qed.

Lemma original_of_compute p tid w :
  original_of p (compute_mem_overhead tid w) = original_of p w.
Proof. by apply original_of_update. Qed.

Lemma original_of_exec_step p s w :
  original_of p (exec_step s w) = original_of p w.
Proof.
  destruct s as [c lineno|bytes|f]; simpl; try done.
  destruct (sys_trace w) as [[n|tid]|]; try done.
  apply original_of_update. intros t. by destruct (bool_decide _).
Qed.

Lemma original_of_exec_program p prog w :
  original_of p (snd (exec_program prog w)) = original_of p w.
Proof.
  unfold exec_program.
  assert (H : forall steps w,
            original_of p (fold_left (fun w s => exec_step s w) steps w)
            = original_of p w).
  { induction steps as [|s steps IH]; intros w0; simpl; [done|].
    by rewrite IH, original_of_exec_step. }
  destruct (prog_raises prog); simpl; apply H.
Qed.

Lemma exit_restores_original prof w h :
  original_of prof w = Some h -> __exit__ prof w = settrace h w.
Proof.
  unfold original_of, __exit__.
  destruct (trackers w !! prof); simpl; [|done]. by intros [= ->].
Qed.

Lemma original_of_init w :
  original_of (length (trackers w)) (__enter__ (length (trackers w)) (snd (__init__ w)))
  = Some (sys_trace w).
Proof.
  unfold original_of; simpl.
  rewrite lookup_app_r by lia. by rewrite Nat.sub_diag.
Qed.

(** What a scope does, for a body that leaves [_original_trace_function]
    alone: the body runs under the hook of the new tracker, and the hook
    that was installed before is installed again. *)
Lemma with_tracker_unfold {A} (body : nat -> world -> pyresult A * world) w :
  keeps_original body ->
  with_tracker body w =
    (length (trackers w),
     fst (body (length (trackers w))
            (__enter__ (length (trackers w)) (snd (__init__ w)))),
     settrace (sys_trace w)
       (snd (body (length (trackers w))
               (__enter__ (length (trackers w)) (snd (__init__ w)))))).
Proof.
  intros Hk. unfold with_tracker. simpl.
  destruct (body _ _) as [r w3] eqn:Hb. simpl.
  f_equal. apply exit_restores_original.
  change w3 with (snd (r, w3)). rewrite <- Hb, Hk. apply original_of_init.
Qed.

(** C5: a tracer scope ends with the hook that was installed when the
    tracker was created, whether its body returns or raises; the last call
    of [sys.settrace] is the one that restores it; and the scope yields
    what its body yielded, so an exception of the body goes on to the
    caller. *)
Theorem tracer_scope_restores_hook {A} (body : nat -> world -> pyresult A * world) w :
  keeps_original body ->
  sys_trace (snd (with_tracker body w)) = sys_trace w /\
  last (settrace_calls (snd (with_tracker body w))) = Some (sys_trace w) /\
  snd (fst (with_tracker body w))
  = fst (body (length (trackers w))
           (__enter__ (length (trackers w)) (snd (__init__ w)))) /\
  forall e,
    fst (body (length (trackers w))
           (__enter__ (length (trackers w)) (snd (__init__ w)))) = Raise e ->
    snd (fst (with_tracker body w)) = Raise e.
Proof.
  intros Hk. rewrite (with_tracker_unfold body w Hk). simpl.
  split; [done|]. split; [by rewrite last_snoc|]. split; [done|]. by intros e ->.
Qed.

Lemma tracer_scope_restores_hook_witness :
  sys_trace (snd (with_tracker (fun _ => exec_program failing_target) outer_active_world))
  = Some (TrackerTrace 0) /\
  snd (fst (with_tracker (fun _ => exec_program failing_target) outer_active_world))
  = Raise (OtherError "ValueError").
Proof.
  destruct (tracer_scope_restores_hook (fun _ => exec_program failing_target)
              outer_active_world) as (H1 & _ & _ & H2).
  - intros prof w. apply original_of_exec_program.
  - split; [exact H1 | apply H2; reflexivity].
Defined.

(** ** Nested scopes *)

Lemma function_body_keeps_original fcode target :
  keeps_original (fun prof w =>
    exec_program target (compute_mem_overhead prof (tracker_add_code prof fcode w))).
Proof.
  intros prof w.
  by rewrite original_of_exec_program, original_of_compute, original_of_add_code.
Qed.

(** C6, refuted as stated: with the tracker of a first run active, a second
    run in function mode is not rejected; it returns its own tracker, whose
    log holds the two lines, while the log of the first tracker, which
    registered the same code, stays empty. *)
Lemma nested_scope_counterexample :
  scope_active outer_active_world /\
  ~ rejected (run_as_function keeper_code keeper_target outer_active_world)
      outer_active_world /\
  fst (run_as_function keeper_code keeper_target outer_active_world) = Ok 1%nat /\
  (length ∘ _events_list) <$>
    trackers (snd (run_as_function keeper_code keeper_target outer_active_world))
  = [0%nat; 2%nat].
Proof.
  split; [exists 0%nat; split; [reflexivity | simpl; lia]|].
  split; [|split; vm_compute; reflexivity].
  intros [[e He] _]. vm_compute in He. discriminate.
Qed.

(** C6, amended: entering a tracer scope while the hook of another tracker
    is installed is not rejected.  The new tracker takes down the hook of
    the active one as its original, installs its own hook in its place for
    the body, and the scope ends with the hook of the first tracker
    installed again and with the outcome of its body. *)
Theorem nested_scope_is_entered {A} (body : nat -> world -> pyresult A * world) w tid :
  sys_trace w = Some (TrackerTrace tid) ->
  keeps_original body ->
  sys_trace (__enter__ (length (trackers w)) (snd (__init__ w)))
  = Some (TrackerTrace (length (trackers w))) /\
  original_of (length (trackers w))
    (__enter__ (length (trackers w)) (snd (__init__ w)))
  = Some (Some (TrackerTrace tid)) /\
  fst (with_tracker body w)
  = (length (trackers w),
     fst (body (length (trackers w))
            (__enter__ (length (trackers w)) (snd (__init__ w))))) /\
  sys_trace (snd (with_tracker body w)) = Some (TrackerTrace tid).
Proof.
  intros Hactive Hk. rewrite (with_tracker_unfold body w Hk). simpl.
  split; [done|]. split; [by rewrite original_of_init, Hactive|]. by split.
Qed.

Lemma nested_scope_is_entered_witness :
  sys_trace (__enter__ 1 (snd (__init__ outer_active_world)))
  = Some (TrackerTrace 1) /\
  original_of 1 (__enter__ 1 (snd (__init__ outer_active_world)))
  = Some (Some (TrackerTrace 0)) /\
  fst (with_tracker (fun _ => exec_program keeper_target) outer_active_world)
  = (1%nat,
     fst (exec_program keeper_target
            (__enter__ 1 (snd (__init__ outer_active_world))))) /\
  sys_trace (snd (with_tracker (fun _ => exec_program keeper_target) outer_active_world))
  = Some (TrackerTrace 0).
Proof.
  apply (nested_scope_is_entered (fun _ => exec_program keeper_target)
           outer_active_world 0).
  - reflexivity.
  - intros prof w. apply original_of_exec_program.
Defined.

(** ** Targets that cannot be loaded *)

(** C8, refuted as stated: in module mode a source that does not compile
    fails after the tracker was created and its hook installed. *)
Lemma load_failure_counterexample :
  load_failure (ModuleFile None (Raise SyntaxError) keeper_target) SyntaxError /\
  ~ fails_fast (ModuleFile None (Raise SyntaxError) keeper_target) SyntaxError
      initial_world /\
  settrace_calls
    (snd (run_dispatcher (ModuleFile None (Raise SyntaxError) keeper_target)
            initial_world))
  = [Some (TrackerTrace 0); None].
Proof.
  split; [right; by split|].
  split; [|vm_compute; reflexivity].
  unfold fails_fast. intros H.
  apply (f_equal (fun x => length (settrace_calls (snd x)))) in H.
  vm_compute in H. discriminate.
Qed.

(** C8, amended: in the two package modes a failure of
    [get_package_code] is raised before a tracker exists, and so is, in
    module mode, a failure to open the file: the state is untouched.  In
    module mode a failure of [compile] is raised inside the tracer scope:
    a tracker has been created and its hook installed, nothing of the
    target has run, and the hook found at the start is installed again
    when the failure leaves the scope. *)
Theorem load_failures_and_the_hook e target w :
  run_as_package_path (Raise e) target w = (Raise e, w) /\
  run_as_package_in_namespace (Raise e) target w = (Raise e, w) /\
  (forall compiled, run_as_module (Some e) compiled target w = (Raise e, w)) /\
  run_as_module None (Raise e) target w
  = (match e with SystemExit => Ok (length (trackers w)) | _ => Raise e end,
     World (sys_trace w)
       (settrace_calls w ++ [Some (TrackerTrace (length (trackers w))); sys_trace w])
       (trackers w ++ [Tracker ∅ [] (sys_trace w) [] None])
       (rss w) (initial_rss_size w)).
Proof.
  split; [reflexivity|]. split; [reflexivity|]. split; [reflexivity|].
  unfold run_as_module, with_tracker. simpl.
  unfold __exit__. simpl.
  rewrite lookup_app_r by lia. rewrite Nat.sub_diag. simpl.
  unfold settrace; simpl. rewrite <- app_assoc. simpl.
  by destruct e.
Qed.

(** ** [sys.exit()] in the target *)

Lemma exec_program_exit_state steps e w :
  snd (exec_program (Program steps (Some e)) w) = snd (exec_program (Program steps None) w).
Proof. reflexivity. Qed.

(** The three modes with an [except SystemExit] clause end as if the target
    had returned after the same steps. *)
Lemma guarded_modes_absorb_SystemExit codes c steps w :
  run_as_package_path (Ok codes) (Program steps (Some SystemExit)) w
  = run_as_package_path (Ok codes) (Program steps None) w /\
  run_as_module None (Ok c) (Program steps (Some SystemExit)) w
  = run_as_module None (Ok c) (Program steps None) w /\
  run_as_package_in_namespace (Ok codes) (Program steps (Some SystemExit)) w
  = run_as_package_in_namespace (Ok codes) (Program steps None) w.
Proof. repeat split; reflexivity. Qed.

(** C4 fails in function mode: [run_as_function] has no
    [except SystemExit], so a target that asks to exit makes the run, and
    [MemoryProfile.run] with it, raise [SystemExit] instead of returning
    the events captured so far. *)
Theorem function_mode_propagates_SystemExit fcode steps name existing new w :
  fst (run_as_function fcode (Program steps (Some SystemExit)) w) = Raise SystemExit /\
  fst (run name (FunctionObject fcode (Program steps (Some SystemExit))) existing new w)
  = Raise SystemExit /\
  fst (run_as_function fcode (Program steps None) w) = Ok (length (trackers w)).
Proof.
  assert (H : fst (run_as_function fcode (Program steps (Some SystemExit)) w)
              = Raise SystemExit) by reflexivity.
  split; [exact H|]. split; [|reflexivity].
  unfold run, run_dispatcher.
  destruct (run_as_function _ _ w) as [r w1]. simpl in H. by rewrite H.
Qed.

Example function_mode_exit_run :
  fst (run "keep" (FunctionObject keeper_code exiting_target) [] keeper_after
         initial_world) = Raise SystemExit /\
  is_ok (fst (run "keep" (ModuleFile None (Ok keeper_code) exiting_target) []
                lists_released_after initial_world)) = true.
Proof. split; vm_compute; reflexivity. Qed.

(** ** Further facts about whole runs *)

(** The test of the loop reads cell 0, the sequence index, as the line and
    cell 2, the float, as the unit name: it never holds, and two events of
    one place with a rising value stay two rows. *)
Example rising_log_two_rows :
  fst (code_events (Tracker ∅ rising_log None [] (Some 0)))
  = Ok [[PyInt 1; PyInt 7; PyFloat (3145728 # 1048576); PyStr "f"; PyStr "a.py"];
        [PyInt 2; PyInt 7; PyFloat (5242880 # 1048576); PyStr "f"; PyStr "a.py"]].
Proof. reflexivity. Qed.

Lemma read_code_events_again prof w r w2 :
  read_code_events prof w = (r, w2) -> read_code_events prof w2 = (r, w2).
Proof.
  unfold read_code_events.
  destruct (trackers w !! prof) as [t|] eqn:Ht.
  - destruct (code_events t) as [r1 t1] eqn:Hc. intros [= <- <-]. simpl.
    rewrite list_lookup_insert_eq by (by eapply lookup_lt_Some).
    pose proof (code_events_idempotent t) as Hi. rewrite Hc in Hi. simpl in Hi.
    rewrite Hi. unfold set_trackers; simpl. by rewrite list_insert_insert_eq.
  - intros [= <- <-]. by rewrite Ht.
Qed.

(** [totalEvents] is the length of [codeEvents]: the second read of the
    property in [run] sees the list of the first. *)
Lemma run_total_events name o existing new w res w' :
  run name o existing new w = (Ok res, w') ->
  totalEvents res = length (codeEvents res).
Proof.
  unfold run. intros H.
  destruct (run_dispatcher o w) as [[prof|e] w1]; [|done].
  destruct (_format_obj_count _) as [pretty|e]; [|done].
  destruct (read_code_events prof w1) as [r1 w2] eqn:H1.
  rewrite (read_code_events_again _ _ _ _ H1) in H.
  destruct r1 as [ev1|e]; [|done]. by inversion H.
Qed.

Lemma package_body_keeps_original codes target :
  keeps_original (fun prof w =>
    let '(r, w) :=
      exec_program target (compute_mem_overhead prof (add_all_code prof codes w)) in
    (except_SystemExit r, w)).
Proof.
  intros prof w. simpl.
  pose proof (original_of_exec_program prof target
                (compute_mem_overhead prof (add_all_code prof codes w))) as H.
  destruct (exec_program target _) as [r w3]. simpl in *.
  by rewrite H, original_of_compute, original_of_add_all_code.
Qed.

Lemma module_body_keeps_original compiled target :
  keeps_original (fun prof w =>
    match compiled with
    | Raise e => (Raise e, w)
    | Ok c =>
        exec_program target (compute_mem_overhead prof (tracker_add_code prof c w))
    end).
Proof.
  intros prof w. destruct compiled as [c|e]; simpl; [|done].
  by rewrite original_of_exec_program, original_of_compute, original_of_add_code.
Qed.

(** Every run mode, however it ends, leaves the hook it found. *)
Lemma run_dispatcher_restores_hook o w :
  sys_trace (snd (run_dispatcher o w)) = sys_trace w.
Proof.
  destruct o as [pkg_code target|opened compiled target|pkg_code target|fcode target];
    cbn [run_dispatcher].
  - unfold run_as_package_path. destruct pkg_code as [codes|e]; [|done].
    rewrite (with_tracker_unfold _ w (package_body_keeps_original codes target)).
    reflexivity.
  - unfold run_as_module. destruct opened as [e|]; [done|].
    rewrite (with_tracker_unfold _ w (module_body_keeps_original compiled target)).
    reflexivity.
  - unfold run_as_package_in_namespace. destruct pkg_code as [codes|e]; [|done].
    rewrite (with_tracker_unfold _ w (package_body_keeps_original codes target)).
    reflexivity.
  - unfold run_as_function.
    rewrite (with_tracker_unfold _ w (function_body_keeps_original fcode target)).
    reflexivity.
Qed.

(** In the three guarded modes an exception of the target other than
    [SystemExit] reaches the caller, as every exception does in function
    mode. *)
Lemma target_errors_propagate codes c fcode steps e w :
  e <> SystemExit ->
  fst (run_as_package_path (Ok codes) (Program steps (Some e)) w) = Raise e /\
  fst (run_as_module None (Ok c) (Program steps (Some e)) w) = Raise e /\
  fst (run_as_package_in_namespace (Ok codes) (Program steps (Some e)) w) = Raise e /\
  fst (run_as_function fcode (Program steps (Some e)) w) = Raise e.
Proof. intros He. by destruct e. Qed.

(** Scenario A of the specification: a module of one statement. *)
Example single_statement_module :
  let m := Code 1 "<module>" "dummy_module.py" [] in
  exists res,
    fst (run "dummy_module.py" (ModuleFile None (Ok m) (Program [Line m 1] None))
           [] lists_released_after initial_world) = Ok res /\
    totalEvents res = 1%nat /\
    codeEvents res
    = [[PyInt 1; PyInt 1; PyFloat (41943040 # 1048576); PyStr "<module>";
        PyStr "dummy_module.py"]].
Proof. eexists. split; [vm_compute; reflexivity|]. split; reflexivity. Qed.

(** * Further properties *)

#[local] Set Warnings "-clear-no-such-hyp".

(** ** [_remove_duplicates] and [_process_in_memory_objects] *)

Lemma remove_duplicates_loop_app objects : forall seen uniq,
  remove_duplicates_loop objects seen uniq
  = uniq ++ remove_duplicates_loop objects seen [].
Proof.
  induction objects as [|obj rest IH]; intros seen uniq; simpl.
  - by rewrite app_nil_r.
  - case_bool_decide; [apply IH|].
    rewrite (IH _ (uniq ++ [obj])), (IH _ [obj]). by rewrite <- app_assoc.
Qed.

Lemma remove_duplicates_loop_cons obj rest seen :
  remove_duplicates_loop (obj :: rest) seen [] =
    if bool_decide (obj_id obj ∈ seen) then remove_duplicates_loop rest seen []
    else obj :: remove_duplicates_loop rest ({[obj_id obj]} ∪ seen) [].
Proof.
  simpl. case_bool_decide; [done|].
  by rewrite remove_duplicates_loop_app.
Qed.

Lemma remove_duplicates_loop_spec objects : forall seen,
  NoDup (ids_of (remove_duplicates_loop objects seen [])) /\
  sublist (remove_duplicates_loop objects seen []) objects /\
  (forall i, i ∈ ids_of (remove_duplicates_loop objects seen [])
             <-> i ∈ ids_of objects /\ i ∉ seen).
Proof.
  induction objects as [|obj rest IH]; intros seen.
  - simpl. split; [constructor|]. split; [constructor|].
    intros i. split; [by intros H%elem_of_nil | by intros [H%elem_of_nil _]].
  - rewrite remove_duplicates_loop_cons. case_bool_decide as Hseen.
    + destruct (IH seen) as (Hnd & Hsub & Hin).
      split; [done|]. split; [by apply sublist_cons|].
      intros i. rewrite Hin. unfold ids_of; simpl. rewrite elem_of_cons.
      split; [tauto|]. intros [[-> | H] Hi]; [done | tauto].
    + destruct (IH ({[obj_id obj]} ∪ seen)) as (Hnd & Hsub & Hin).
      split; [|split].
      * unfold ids_of in *; simpl. apply NoDup_cons. split; [|done].
        rewrite Hin. set_solver.
      * by apply sublist_skip.
      * intros i. unfold ids_of in *; simpl. rewrite !elem_of_cons, Hin.
        split.
        -- intros [-> | [H1 H2]]; [tauto|]. split; [tauto | set_solver].
        -- intros [[-> | H1] H2]; [tauto|].
           destruct (decide (i = obj_id obj)); [tauto|]. right. set_solver.
Qed.

(** X1: [_remove_duplicates] returns objects with pairwise distinct ids,
    in the order of the input and with nothing added, and every id of the
    input is among them. *)
Theorem remove_duplicates_distinct objects :
  NoDup (ids_of (_remove_duplicates objects)) /\
  sublist (_remove_duplicates objects) objects /\
  (forall i, i ∈ ids_of (_remove_duplicates objects) <-> i ∈ ids_of objects).
Proof.
  destruct (remove_duplicates_loop_spec objects ∅) as (H1 & H2 & H3).
  split; [done|]. split; [done|].
  intros i. unfold _remove_duplicates. rewrite H3. set_solver.
Qed.

Lemma remove_duplicates_loop_seen objects : forall i seen,
  remove_duplicates_loop objects ({[i]} ∪ seen) []
  = remove_duplicates_loop
      (List.filter (fun x => negb (N.eqb (obj_id x) i)) objects) seen [].
Proof.
  induction objects as [|obj rest IH]; intros i seen; [done|].
  rewrite remove_duplicates_loop_cons. cbn [List.filter].
  destruct (N.eqb_spec (obj_id obj) i) as [Heq|Hne]; cbn [negb].
  - rewrite bool_decide_eq_true_2 by set_solver. apply IH.
  - rewrite remove_duplicates_loop_cons.
    destruct (decide (obj_id obj ∈ seen)) as [Hin|Hnin].
    + rewrite !bool_decide_eq_true_2 by set_solver. apply IH.
    + rewrite !bool_decide_eq_false_2 by set_solver. f_equal.
      replace ({[obj_id obj]} ∪ ({[i]} ∪ seen)) with ({[i]} ∪ ({[obj_id obj]} ∪ seen))
        by set_solver.
      apply IH.
Qed.

(** X2: an object is kept where its id occurs first, and every later
    object with that id is dropped. *)
Theorem remove_duplicates_first_occurrence obj objects :
  _remove_duplicates (obj :: objects)
  = obj :: _remove_duplicates (others_than obj objects).
Proof.
  unfold _remove_duplicates, others_than.
  rewrite remove_duplicates_loop_cons.
  rewrite bool_decide_eq_false_2 by set_solver. f_equal.
  by rewrite <- remove_duplicates_loop_seen.
Qed.

Lemma remove_duplicates_loop_id objects : forall seen,
  NoDup (ids_of objects) ->
  (forall i, i ∈ ids_of objects -> i ∉ seen) ->
  remove_duplicates_loop objects seen [] = objects.
Proof.
  induction objects as [|obj rest IH]; intros seen Hnd Hseen; [done|].
  unfold ids_of in *; simpl in Hnd, Hseen. apply NoDup_cons in Hnd as [Hobj Hnd].
  rewrite remove_duplicates_loop_cons.
  rewrite bool_decide_eq_false_2 by (apply Hseen; set_solver).
  f_equal. apply IH; [done|].
  intros i Hi. specialize (Hseen i). set_solver.
Qed.

(** X3: removing duplicates twice is removing them once. *)
Theorem remove_duplicates_idempotent objects :
  _remove_duplicates (_remove_duplicates objects) = _remove_duplicates objects.
Proof.
  unfold _remove_duplicates at 1. apply remove_duplicates_loop_id.
  - apply (remove_duplicates_loop_spec objects ∅).
  - intros i _. set_solver.
Qed.

(** X4: [_process_in_memory_objects] returns no frame, no two objects with
    one id, and an object for the id of every object that is not a frame. *)
Theorem process_drops_frames objects :
  Forall (fun obj => isframe obj = false) (_process_in_memory_objects objects) /\
  NoDup (ids_of (_process_in_memory_objects objects)) /\
  (forall obj, obj ∈ objects -> isframe obj = false ->
               obj_id obj ∈ ids_of (_process_in_memory_objects objects)).
Proof.
  unfold _process_in_memory_objects.
  set (kept := List.filter (fun obj => negb (isframe obj)) objects).
  destruct (remove_duplicates_loop_spec kept ∅) as (Hnd & Hsub & Hin).
  fold (_remove_duplicates kept) in Hnd, Hsub, Hin.
  split; [|split; [done|]].
  - rewrite Forall_forall. intros obj Hobj.
    apply (elem_of_sublist _ _ _ Hobj) in Hsub as Hkept.
    clear Hobj; rename Hkept into Hobj.
    apply list_elem_of_In, filter_In in Hobj as [_ Hobj].
    by apply negb_true_iff.
  - intros obj Hobj Hframe. apply Hin. split; [|set_solver].
    apply list_elem_of_In, in_map, filter_In. split; [by apply list_elem_of_In|].
    by rewrite Hframe.
Qed.

(** ** [_get_object_count_by_type] *)

Lemma counter_of_fold_get elems : forall c t,
  counter_get (fold_left (fun c t => counter_set c t (counter_get c t + 1)) elems c) t
  = counter_get c t + Z.of_nat (occurrences t elems).
Proof.
  induction elems as [|t' elems IH]; intros c t; simpl.
  - unfold occurrences; simpl. lia.
  - rewrite IH, counter_get_set. unfold occurrences; simpl.
    case_bool_decide as E; simpl.
    + subst t'. lia.
    + lia.
Qed.

Lemma occurrences_map_type t objects :
  occurrences t (map obj_type objects) = count_type t objects.
Proof.
  unfold occurrences, count_type.
  induction objects as [|obj rest IH]; simpl; [done|].
  destruct (bool_decide (obj_type obj = t)); simpl; by rewrite IH.
Qed.

Lemma counter_get_nonneg c t : Forall (fun e => 0 < snd e) c -> 0 <= counter_get c t.
Proof.
  induction 1 as [|[k n] c Hk _ IH]; simpl; [lia|].
  destruct (bool_decide (k = t)); simpl in *; lia.
Qed.

Lemma counter_of_positive elems : Forall (fun e => 0 < snd e) (counter_of elems).
Proof.
  unfold counter_of.
  assert (H : forall c, Forall (fun e => 0 < snd e) c ->
            Forall (fun e => 0 < snd e)
              (fold_left (fun c t => counter_set c t (counter_get c t + 1)) elems c)).
  { induction elems as [|t elems IH]; intros c Hc; simpl; [done|].
    apply IH. apply counter_set_Forall; [done|]. simpl.
    pose proof (counter_get_nonneg c t Hc). lia. }
  apply H. constructor.
Qed.

Lemma counter_total_set c t :
  counter_total (counter_set c t (counter_get c t + 1)) = counter_total c + 1.
Proof.
  unfold counter_total.
  induction c as [|[k n] c IH]; simpl; [lia|].
  destruct (bool_decide (k = t)); simpl; lia.
Qed.

Lemma counter_of_total elems : counter_total (counter_of elems) = Z.of_nat (length elems).
Proof.
  unfold counter_of.
  assert (H : forall c,
            counter_total (fold_left (fun c t => counter_set c t (counter_get c t + 1)) elems c)
            = counter_total c + Z.of_nat (length elems)).
  { induction elems as [|t elems IH]; intros c; simpl length; simpl fold_left; [lia|].
    rewrite IH, counter_total_set. lia. }
  rewrite H. unfold counter_total; simpl. lia.
Qed.

(** X5: the count that [_get_object_count_by_type] gives for a type is the
    number of objects of that type, 0 for a type that does not occur. *)
Theorem object_count_is_count objects t :
  counter_get (_get_object_count_by_type objects) t
  = Z.of_nat (count_type t objects).
Proof.
  unfold _get_object_count_by_type, counter_of.
  rewrite counter_of_fold_get, occurrences_map_type. simpl. lia.
Qed.

(** X6: the counter has one entry per type, every entry counts at least one
    object, and the counts add up to the number of objects. *)
Theorem object_count_entries objects :
  NoDup (map fst (_get_object_count_by_type objects)) /\
  Forall (fun e => 1 <= snd e) (_get_object_count_by_type objects) /\
  counter_total (_get_object_count_by_type objects) = Z.of_nat (length objects).
Proof.
  unfold _get_object_count_by_type.
  split; [apply counter_of_NoDup|]. split.
  - eapply Forall_impl; [apply counter_of_positive|]. intros e He. simpl in He. lia.
  - by rewrite counter_of_total, length_map.
Qed.

(** ** [_get_obj_count_difference] *)

Lemma counter_get_in c t v :
  NoDup (map fst c) -> (t, v) ∈ c -> counter_get c t = v.
Proof.
  induction c as [|[k n] c IH]; intros Hnd Hin; [by apply elem_of_nil in Hin|].
  simpl in *. apply NoDup_cons in Hnd as [Hk Hnd].
  apply elem_of_cons in Hin as [[= -> ->] | Hin].
  - by rewrite bool_decide_eq_true_2.
  - rewrite bool_decide_eq_false_2; [by apply IH|].
    intros ->. apply Hk. apply list_elem_of_In.
    change t with (fst (t, v)). apply in_map. by apply list_elem_of_In.
Qed.

Lemma counter_get_zero_nil c :
  NoDup (map fst c) -> Forall (fun e => 0 < snd e) c ->
  (forall t, counter_get c t = 0) -> c = [].
Proof.
  destruct c as [|[k n] c]; [done|]. intros Hnd Hpos Hz.
  apply Forall_cons in Hpos as [Hn _]. specialize (Hz k). simpl in *.
  rewrite bool_decide_eq_true_2 in Hz by done. lia.
Qed.

(** X7: the difference of two snapshots is empty exactly when no type has
    more objects in the first snapshot than in the second; in particular a
    snapshot differs from itself by nothing. *)
Theorem difference_empty_iff objs1 objs2 :
  (_get_obj_count_difference objs1 objs2 = []
   <-> forall t, counter_get (census objs1) t <= counter_get (census objs2) t) /\
  _get_obj_count_difference objs1 objs1 = [].
Proof.
  assert (Hget : forall a b t,
            counter_get (_get_obj_count_difference a b) t
            = Z.max 0 (counter_get (census a) t - counter_get (census b) t)).
  { intros a b t. apply counter_sub_get; apply counter_of_NoDup. }
  assert (Hnil : forall a b,
            (forall t, counter_get (census a) t <= counter_get (census b) t) ->
            _get_obj_count_difference a b = []).
  { intros a b H. apply counter_get_zero_nil.
    - apply counter_sub_NoDup.
    - apply counter_sub_positive.
    - intros t. rewrite Hget. specialize (H t). lia. }
  split; [split|].
  - intros H t. pose proof (Hget objs1 objs2 t) as Ht. rewrite H in Ht. simpl in Ht. lia.
  - apply Hnil.
  - apply Hnil. intros t. lia.
Qed.

(** ** [add_code] *)

Lemma add_code_unfold i name filename consts all_code :
  add_code (Code i name filename consts) all_code =
    if bool_decide (i ∈ all_code) then all_code
    else fold_left (fun s subcode => add_code subcode s) consts ({[i]} ∪ all_code).
Proof. reflexivity. Qed.

Lemma subcodes_self c : c ∈ subcodes c.
Proof. destruct c; simpl. apply list_elem_of_here. Qed.

Lemma subcodes_child i name filename consts ch d :
  ch ∈ consts -> d ∈ subcodes ch -> d ∈ subcodes (Code i name filename consts).
Proof.
  intros Hch Hd. simpl. apply list_elem_of_further.
  apply list_elem_of_In, in_flat_map. exists ch.
  split; by apply list_elem_of_In.
Qed.

Lemma subcodes_trans c : forall n d, n ∈ subcodes c -> d ∈ subcodes n -> d ∈ subcodes c.
Proof.
  induction c as [c IH] using (induction_ltof1 _ code_size). unfold ltof in IH.
  destruct c as [i name filename consts]. intros n d Hn Hd.
  simpl in Hn. apply elem_of_cons in Hn as [-> | Hn]; [done|].
  apply list_elem_of_In, in_flat_map in Hn as (ch & Hch & Hn).
  apply (subcodes_child _ _ _ _ ch); [by apply list_elem_of_In|].
  apply (IH ch) with (n := n); [|by apply list_elem_of_In | done].
  simpl. clear -Hch. induction consts as [|x consts IHc]; [done|].
  destruct Hch as [-> | Hch]; simpl; [lia|]. specialize (IHc Hch). lia.
Qed.

Lemma code_size_child i name filename consts ch :
  ch ∈ consts -> (code_size ch < code_size (Code i name filename consts))%nat.
Proof.
  intros Hch. simpl. induction consts as [|x consts IH]; [by apply elem_of_nil in Hch|].
  apply elem_of_cons in Hch as [-> | Hch]; simpl; [lia|]. specialize (IH Hch). lia.
Qed.

Lemma code_size_subcode c : forall d, d ∈ subcodes c -> (code_size d <= code_size c)%nat.
Proof.
  induction c as [c IH] using (induction_ltof1 _ code_size). unfold ltof in IH.
  destruct c as [i name filename consts]. intros d Hd.
  simpl in Hd. apply elem_of_cons in Hd as [-> | Hd]; [done|].
  apply list_elem_of_In, in_flat_map in Hd as (ch & Hch & Hd).
  apply list_elem_of_In in Hch, Hd.
  pose proof (code_size_child i name filename consts ch Hch).
  specialize (IH ch H d Hd). lia.
Qed.

(** Without any assumption: [add_code] only adds, and only identities of
    code nested in its argument. *)
Lemma add_code_bounds c : forall s,
  s ⊆ add_code c s /\
  forall i, i ∈ add_code c s -> i ∈ s \/ exists d, d ∈ subcodes c /\ co_id d = i.
Proof.
  induction c as [c IH] using (induction_ltof1 _ code_size). unfold ltof in IH.
  destruct c as [i0 name filename consts]. intros s.
  rewrite add_code_unfold. case_bool_decide as Hin; [split; [done | by left]|].
  assert (Hfold : forall l s1, (forall ch, ch ∈ l -> ch ∈ consts) ->
            s1 ⊆ fold_left (fun s subcode => add_code subcode s) l s1 /\
            forall i, i ∈ fold_left (fun s subcode => add_code subcode s) l s1 ->
                      i ∈ s1 \/ exists ch d, ch ∈ l /\ d ∈ subcodes ch /\ co_id d = i).
  { induction l as [|ch l IHl]; intros s1 Hl; simpl; [split; [done | by left]|].
    assert (Hch : ch ∈ consts) by (apply Hl, list_elem_of_here).
    destruct (IH ch (code_size_child _ _ _ _ _ Hch) s1) as [Hsub Hfrom].
    destruct (IHl (add_code ch s1)) as [Hsub' Hfrom'].
    { intros x Hx. by apply Hl, list_elem_of_further. }
    split; [set_solver|].
    intros i Hi. destruct (Hfrom' i Hi) as [Hi1 | (x & d & Hx & Hd & Hid)].
    - destruct (Hfrom i Hi1) as [? | (d & Hd & Hid)]; [by left|].
      right. exists ch, d. split; [apply list_elem_of_here | done].
    - right. exists x, d. split; [by apply list_elem_of_further | done]. }
  destruct (Hfold consts ({[i0]} ∪ s)) as [Hsub Hfrom]; [done|].
  split; [set_solver|].
  intros i Hi. destruct (Hfrom i Hi) as [Hi1 | (ch & d & Hch & Hd & Hid)].
  - apply elem_of_union in Hi1 as [->%elem_of_singleton | ?]; [|by left].
    right. exists (Code i0 name filename consts). split; [apply subcodes_self | done].
  - right. exists d. split; [|done]. by apply (subcodes_child _ _ _ _ ch).
Qed.

Lemma add_code_has_self c s : co_id c ∈ add_code c s.
Proof.
  destruct c as [i name filename consts]. rewrite add_code_unfold. simpl.
  case_bool_decide as Hin; [done|].
  assert (Hfold : forall l s1, s1 ⊆ fold_left (fun s subcode => add_code subcode s) l s1).
  { induction l as [|ch l IHl]; intros s1; simpl; [done|].
    pose proof (proj1 (add_code_bounds ch s1)). specialize (IHl (add_code ch s1)).
    set_solver. }
  specialize (Hfold consts ({[i]} ∪ s)). set_solver.
Qed.

(** X8: [add_code] never removes a code object from the set, adds the code
    object it is given, adds nothing but code nested in it, and does
    nothing when called again. *)
Theorem add_code_idempotent c s :
  s ⊆ add_code c s /\
  co_id c ∈ add_code c s /\
  (forall i, i ∈ add_code c s -> i ∈ s \/ exists d, d ∈ subcodes c /\ co_id d = i) /\
  add_code c (add_code c s) = add_code c s.
Proof.
  destruct (add_code_bounds c s) as [H1 H2].
  split; [done|]. split; [apply add_code_has_self|]. split; [done|].
  pose proof (add_code_has_self c s) as Hself.
  destruct c as [i name filename consts]. simpl in Hself.
  rewrite (add_code_unfold i name filename consts (add_code _ s)).
  by rewrite bool_decide_eq_true_2.
Qed.

(** The traversal, with the identities [G] of the code objects whose
    nested code is still being added. *)
Lemma add_code_traversal T : consistent T -> forall c, c ∈ subcodes T -> forall s (G : gset N),
  (forall n, n ∈ subcodes T -> co_id n ∈ s ->
             co_id n ∈ G \/ forall d, d ∈ subcodes n -> co_id d ∈ s) ->
  (forall d, d ∈ subcodes c -> co_id d ∉ G) ->
  (forall d, d ∈ subcodes c -> co_id d ∈ add_code c s) /\
  (forall n, n ∈ subcodes T -> co_id n ∈ add_code c s ->
             co_id n ∈ G \/ forall d, d ∈ subcodes n -> co_id d ∈ add_code c s).
Proof.
  intros HT c. induction c as [c IH] using (induction_ltof1 _ code_size).
  unfold ltof in IH. intros HcT s G Hinv Hgray.
  pose proof (proj1 (add_code_bounds c s)) as Hmono.
  destruct c as [i name filename consts].
  rewrite (add_code_unfold i name filename consts s) in *.
  set (c := Code i name filename consts) in *.
  case_bool_decide as Hin.
  - split; [|done]. intros d Hd.
    destruct (Hinv c HcT Hin) as [HG | Hclosed]; [|by apply Hclosed].
    by destruct (Hgray c (subcodes_self c)).
  - assert (Hfold : forall l s1, (forall ch, ch ∈ l -> ch ∈ consts) ->
              (forall n, n ∈ subcodes T -> co_id n ∈ s1 ->
                 co_id n ∈ {[i]} ∪ G \/ forall d, d ∈ subcodes n -> co_id d ∈ s1) ->
              s1 ⊆ fold_left (fun s subcode => add_code subcode s) l s1 /\
              (forall ch d, ch ∈ l -> d ∈ subcodes ch ->
                 co_id d ∈ fold_left (fun s subcode => add_code subcode s) l s1) /\
              (forall n, n ∈ subcodes T ->
                 co_id n ∈ fold_left (fun s subcode => add_code subcode s) l s1 ->
                 co_id n ∈ {[i]} ∪ G \/
                 forall d, d ∈ subcodes n ->
                   co_id d ∈ fold_left (fun s subcode => add_code subcode s) l s1)).
    { induction l as [|ch l IHl]; intros s1 Hl Hinv1; simpl.
      - split; [done|]. split; [|done]. intros ch d Hch. by apply elem_of_nil in Hch.
      - assert (Hch : ch ∈ consts) by (apply Hl, list_elem_of_here).
        assert (HchT : ch ∈ subcodes T).
        { apply (subcodes_trans T c ch HcT).
          apply (subcodes_child _ _ _ _ ch ch Hch), subcodes_self. }
        destruct (IH ch (code_size_child _ _ _ _ _ Hch) HchT s1 ({[i]} ∪ G) Hinv1)
          as [Hall Hinv2].
        { intros d Hd. assert (HdC : d ∈ subcodes c) by by apply (subcodes_child _ _ _ _ ch).
          intros [Hi%elem_of_singleton | HG]%elem_of_union; [|by apply (Hgray d)].
          assert (d = c).
          { apply HT; [by apply (subcodes_trans T c) | done | done]. }
          subst d. pose proof (code_size_subcode ch c Hd).
          pose proof (code_size_child i name filename consts ch Hch). fold c in H0. lia. }
        destruct (IHl (add_code ch s1)) as (Hsub & Hall' & Hinv3).
        { intros x Hx. by apply Hl, list_elem_of_further. }
        { exact Hinv2. }
        pose proof (proj1 (add_code_bounds ch s1)) as Hm.
        split; [set_solver|]. split; [|done].
        intros x d [-> | Hx]%elem_of_cons Hd.
        + apply Hsub. by apply Hall.
        + by apply (Hall' x). }
    destruct (Hfold consts ({[i]} ∪ s)) as (Hsub & Hall & Hinv'); [done| |].
    { intros n Hn [Hi%elem_of_singleton | Hs]%elem_of_union.
      - left. set_solver.
      - destruct (Hinv n Hn Hs) as [HG | Hcl]; [left; set_solver|].
        right. intros d Hd. specialize (Hcl d Hd). set_solver. }
    assert (Hc : forall d, d ∈ subcodes c ->
              co_id d ∈ fold_left (fun s subcode => add_code subcode s) consts ({[i]} ∪ s)).
    { intros d Hd. simpl in Hd. apply elem_of_cons in Hd as [-> | Hd].
      - apply Hsub. simpl. set_solver.
      - apply list_elem_of_In, in_flat_map in Hd as (ch & Hch & Hd).
        apply (Hall ch); by apply list_elem_of_In. }
    split; [exact Hc|].
    intros n Hn Hn'. destruct (Hinv' n Hn Hn') as [HG | Hcl]; [|by right].
    apply elem_of_union in HG as [Hi%elem_of_singleton | HG]; [|by left].
    right. assert (n = c) by (by apply HT). by subst n.
Qed.

(** X9: when code objects are told apart as Python does, by value, and the
    set holds whatever it holds of [c] together with its nested code (as
    an empty set does, and as [add_code] leaves it), [add_code] registers
    [c] and every code object nested in it, and leaves the set in that
    state. *)
Theorem add_code_registers_nested c s :
  consistent c ->
  closed_under c s ->
  (forall d, d ∈ subcodes c -> co_id d ∈ add_code c s) /\
  closed_under c (add_code c s).
Proof.
  intros Hc Hs.
  destruct (add_code_traversal c Hc c (subcodes_self c) s ∅) as [Hall Hinv].
  - intros n Hn Hin. right. by apply Hs.
  - intros d _. set_solver.
  - split; [done|]. intros n Hn Hin.
    destruct (Hinv n Hn Hin) as [HG | Hcl]; [set_solver | done].
Qed.

Lemma add_code_registers_nested_witness :
  (forall d, d ∈ subcodes sample_module -> co_id d ∈ add_code sample_module ∅) /\
  closed_under sample_module (add_code sample_module ∅).
Proof.
  apply (add_code_registers_nested sample_module ∅).
  - intros n m Hn Hm Hid.
    simpl in Hn, Hm.
    repeat (apply elem_of_cons in Hn as [-> | Hn]);
      repeat (apply elem_of_cons in Hm as [-> | Hm]);
      try reflexivity; try discriminate Hid;
      try (by apply elem_of_nil in Hn); by apply elem_of_nil in Hm.
  - intros n _ Hin. by apply elem_of_empty in Hin.
Defined.

(** ** The raw log of a run *)

Lemma alter_lookup_insert {A} (f : A -> A) (l : list A) i x :
  l !! i = Some x -> alter f i l = <[i := f x]> l.
Proof.
  revert i. induction l as [|y l IH]; intros [|i] H; simpl in *; try done.
  - by inversion H.
  - f_equal. by apply IH.
Qed.

Lemma exec_steps_log steps : forall w prof t,
  no_settrace steps ->
  sys_trace w = Some (TrackerTrace prof) ->
  trackers w !! prof = Some t ->
  fold_left (fun w s => exec_step s w) steps w
  = World (sys_trace w) (settrace_calls w)
      (<[prof := Tracker (_all_code t)
                   (_events_list t ++ trace_of (_all_code t) (rss w) steps)
                   (_original_trace_function t) (_resulting_events t)
                   (mem_overhead t)]> (trackers w))
      (fold_left (fun m s => match s with Rss bytes => bytes | _ => m end) steps (rss w))
      (initial_rss_size w).
Proof.
  induction steps as [|s steps IH]; intros w prof t Hno Hhook Ht.
  - simpl. rewrite app_nil_r. destruct w, t; simpl in *.
    f_equal. symmetry. by apply list_insert_id.
  - apply Forall_cons in Hno as [Hs Hno]. cbn [fold_left].
    destruct s as [c lineno|bytes|f]; [| |done].
    + cbn [exec_step]. rewrite Hhook at 1.
      unfold _trace_memory_usage, update_tracker.
      rewrite (alter_lookup_insert _ _ _ _ Ht).
      rewrite (IH (set_trackers (<[prof := _]> (trackers w)) w) prof _ Hno Hhook
                 (list_lookup_insert_eq (trackers w) prof _ (lookup_lt_Some _ _ _ Ht))).
      simpl. rewrite list_insert_insert_eq. f_equal. f_equal.
      case_bool_decide; simpl; [by rewrite <- app_assoc | done].
    + cbn [exec_step]. rewrite (IH (set_rss bytes w) prof t Hno Hhook Ht). reflexivity.
Qed.

Lemma add_all_code_tracker codes : forall w prof t,
  trackers w !! prof = Some t ->
  add_all_code prof codes w
  = set_trackers
      (<[prof := Tracker (fold_left (fun s c => add_code c s) codes (_all_code t))
                   (_events_list t) (_original_trace_function t)
                   (_resulting_events t) (mem_overhead t)]> (trackers w)) w.
Proof.
  unfold add_all_code.
  induction codes as [|c codes IH]; intros w prof t Ht; simpl.
  - destruct w, t; unfold set_trackers; simpl in *. f_equal. symmetry.
    by apply list_insert_id.
  - unfold tracker_add_code at 2, update_tracker.
    rewrite (alter_lookup_insert _ _ _ _ Ht).
    rewrite (IH (set_trackers (<[prof := _]> (trackers w)) w) prof _
               (list_lookup_insert_eq (trackers w) prof _ (lookup_lt_Some _ _ _ Ht))).
    unfold set_trackers; simpl. by rewrite list_insert_insert_eq.
Qed.

(** The state after the target has run, for a tracker that was started
    with the code [all_code] registered and the baseline computed. *)
Lemma scope_body_state all_code target w :
  no_settrace (prog_steps target) ->
  snd (exec_program target (scope_started all_code w))
  = World (Some (TrackerTrace (length (trackers w))))
      (settrace_calls w ++ [Some (TrackerTrace (length (trackers w)))])
      (trackers w ++ [tracker_after all_code target w])
      (final_rss (rss w) (prog_steps target)) (initial_rss_size w).
Proof.
  intros Hno.
  assert (Ht : trackers (scope_started all_code w) !! length (trackers w)
               = Some (Tracker all_code [] (sys_trace w) []
                         (Some (rss w - initial_rss_size w)))).
  { simpl. rewrite lookup_app_r by lia. by rewrite Nat.sub_diag. }
  assert (Hw : snd (exec_program target (scope_started all_code w))
               = fold_left (fun w s => exec_step s w) (prog_steps target)
                   (scope_started all_code w)).
  { unfold exec_program. by destruct (prog_raises target). }
  rewrite Hw, (exec_steps_log _ (scope_started all_code w) (length (trackers w)) _
                 Hno eq_refl Ht). simpl.
  rewrite insert_app_r_alt by lia. by rewrite Nat.sub_diag.
Qed.

Lemma started_function fcode w :
  compute_mem_overhead (length (trackers w))
    (tracker_add_code (length (trackers w)) fcode
       (__enter__ (length (trackers w)) (snd (__init__ w))))
  = scope_started (add_code fcode ∅) w.
Proof.
  unfold compute_mem_overhead, tracker_add_code, update_tracker, scope_started,
    set_trackers. simpl.
  rewrite !alter_app_r_alt by lia. rewrite Nat.sub_diag. reflexivity.
Qed.

Lemma started_package codes w :
  compute_mem_overhead (length (trackers w))
    (add_all_code (length (trackers w)) codes
       (__enter__ (length (trackers w)) (snd (__init__ w))))
  = scope_started (fold_left (fun s c => add_code c s) codes ∅) w.
Proof.
  rewrite (add_all_code_tracker codes _ _ (Tracker ∅ [] (sys_trace w) [] None)).
  2:{ simpl. rewrite lookup_app_r by lia. by rewrite Nat.sub_diag. }
  unfold compute_mem_overhead, update_tracker, scope_started, set_trackers. simpl.
  rewrite insert_app_r_alt by lia. rewrite Nat.sub_diag. simpl.
  rewrite alter_app_r_alt by lia. rewrite Nat.sub_diag. reflexivity.
Qed.

Lemma exit_after_target all_code target w :
  no_settrace (prog_steps target) ->
  __exit__ (length (trackers w))
    (snd (exec_program target (scope_started all_code w)))
  = World (sys_trace w)
      (settrace_calls w ++ [Some (TrackerTrace (length (trackers w))); sys_trace w])
      (trackers w ++ [tracker_after all_code target w])
      (final_rss (rss w) (prog_steps target)) (initial_rss_size w).
Proof.
  intros Hno. rewrite (scope_body_state all_code target w Hno).
  unfold __exit__. cbn [trackers].
  rewrite lookup_app_r by lia. rewrite Nat.sub_diag. cbn.
  unfold settrace; simpl. by rewrite <- app_assoc.
Qed.

(** The state that a run mode leaves, for a target that loads and does not
    touch the trace hook. *)
Lemma run_mode_state o all_code target w :
  loaded o = Some (all_code, target) ->
  no_settrace (prog_steps target) ->
  snd (run_dispatcher o w)
  = World (sys_trace w)
      (settrace_calls w ++ [Some (TrackerTrace (length (trackers w))); sys_trace w])
      (trackers w ++ [tracker_after all_code target w])
      (final_rss (rss w) (prog_steps target)) (initial_rss_size w).
Proof.
  intros Hload Hno.
  destruct o as [[codes|e] tg|[e|] [c|e'] tg|[codes|e] tg|fcode tg];
    simpl in Hload; try discriminate; inversion Hload; subst all_code tg; clear Hload;
    cbn [run_dispatcher].
  - unfold run_as_package_path, with_tracker. cbn [__init__ fst snd].
    rewrite started_package.
    destruct (exec_program target _) as [r w3] eqn:E. simpl.
    change w3 with (snd (r, w3)). rewrite <- E. by apply exit_after_target.
  - unfold run_as_module, with_tracker. cbn [__init__ fst snd].
    rewrite started_function.
    destruct (exec_program target _) as [r w3] eqn:E. simpl.
    change w3 with (snd (r, w3)). rewrite <- E. by apply exit_after_target.
  - unfold run_as_package_in_namespace, with_tracker. cbn [__init__ fst snd].
    rewrite started_package.
    destruct (exec_program target _) as [r w3] eqn:E. simpl.
    change w3 with (snd (r, w3)). rewrite <- E. by apply exit_after_target.
  - unfold run_as_function, with_tracker. cbn [__init__ fst snd].
    rewrite started_function.
    destruct (exec_program target _) as [r w3] eqn:E. simpl.
    change w3 with (snd (r, w3)). rewrite <- E. by apply exit_after_target.
Qed.

(** X10: in every run mode whose target loads and does not touch the trace
    hook, the run creates one tracker and leaves the others alone; the new
    tracker holds the baseline, resident size at the start minus the
    startup size, and in its log one event for each line reached in
    registered code, in order and with the resident size of that moment,
    and nothing for lines of other code; [sys.settrace] is called twice,
    to install the hook of the tracker and to put back the hook found.
    This holds also when the target raises. *)
Theorem run_mode_log o all_code target w :
  loaded o = Some (all_code, target) ->
  no_settrace (prog_steps target) ->
  trackers (snd (run_dispatcher o w))
  = trackers w ++ [tracker_after all_code target w] /\
  settrace_calls (snd (run_dispatcher o w))
  = settrace_calls w ++ [Some (TrackerTrace (length (trackers w))); sys_trace w].
Proof.
  intros Hload Hno. by rewrite (run_mode_state o all_code target w Hload Hno).
Qed.

Lemma run_mode_log_witness :
  trackers (snd (run_dispatcher (FunctionObject keeper_code mixed_target)
                   outer_active_world))
  = trackers outer_active_world
    ++ [tracker_after (add_code keeper_code ∅) mixed_target outer_active_world] /\
  settrace_calls (snd (run_dispatcher (FunctionObject keeper_code mixed_target)
                         outer_active_world))
  = settrace_calls outer_active_world
    ++ [Some (TrackerTrace (length (trackers outer_active_world)));
        sys_trace outer_active_world].
Proof.
  apply (run_mode_log (FunctionObject keeper_code mixed_target)).
  - reflexivity.
  - repeat constructor.
Defined.

(** ** Whole runs *)

Lemma run_dispatcher_prof o w prof :
  fst (run_dispatcher o w) = Ok prof -> prof = length (trackers w).
Proof.
  destruct o as [[codes|e] tg|[e|] compiled tg|[codes|e] tg|fcode tg];
    cbn [run_dispatcher]; try discriminate.
  - unfold run_as_package_path, with_tracker. cbn [__init__ fst snd].
    destruct (exec_program tg _) as [r w3]. simpl.
    destruct (except_SystemExit r); simpl; [congruence | discriminate].
  - unfold run_as_module, with_tracker. cbn [__init__ fst snd].
    destruct compiled as [c|e].
    + destruct (exec_program tg _) as [r w3]. simpl.
      destruct (except_SystemExit r); simpl; [congruence | discriminate].
    + destruct e; simpl; congruence.
  - unfold run_as_package_in_namespace, with_tracker. cbn [__init__ fst snd].
    destruct (exec_program tg _) as [r w3]. simpl.
    destruct (except_SystemExit r); simpl; [congruence | discriminate].
  - unfold run_as_function, with_tracker. cbn [__init__ fst snd].
    destruct (exec_program tg _) as [r w3]. simpl.
    destruct r; simpl; [congruence | discriminate].
Qed.

Lemma read_code_events_hook prof w :
  sys_trace (snd (read_code_events prof w)) = sys_trace w.
Proof.
  unfold read_code_events. destruct (trackers w !! prof) as [t|]; [|done].
  by destruct (code_events t).
Qed.

(** X11: [MemoryProfile.run] leaves the trace hook that it found, whether
    it returns a result or raises, in every run mode. *)
Theorem run_restores_hook name o existing new w :
  sys_trace (snd (run name o existing new w)) = sys_trace w.
Proof.
  unfold run.
  pose proof (run_dispatcher_restores_hook o w) as Hd.
  destruct (run_dispatcher o w) as [[prof|e] w1]; simpl in Hd; [|done].
  destruct (_format_obj_count _) as [pretty|e]; [|done].
  pose proof (read_code_events_hook prof w1) as H1.
  destruct (read_code_events prof w1) as [[ev1|e] w2]; simpl in *; [|congruence].
  pose proof (read_code_events_hook prof w2) as H2.
  destruct (read_code_events prof w2) as [[ev2|e] w3]; simpl in *; congruence.
Qed.

(** X12: when the target loads and does not touch the trace hook, the
    result of [run] carries the name it was given and one row for every
    line reached in registered code: the position in the log counted from
    1, the line, the resident size of that moment minus the baseline in
    MB, the unit and the file; [totalEvents] is their number. *)
Theorem run_code_events name o existing new w res w' all_code target :
  loaded o = Some (all_code, target) ->
  no_settrace (prog_steps target) ->
  run name o existing new w = (Ok res, w') ->
  objectName res = name /\
  codeEvents res
  = rows_from (rss w - initial_rss_size w) 0
      (trace_of all_code (rss w) (prog_steps target)) /\
  totalEvents res = length (trace_of all_code (rss w) (prog_steps target)).
Proof.
  intros Hload Hno Hrun.
  pose proof (run_total_events _ _ _ _ _ _ _ Hrun) as Htotal.
  pose proof (f_equal trackers (run_mode_state o all_code target w Hload Hno)) as Hlog.
  cbn [trackers] in Hlog.
  pose proof (run_dispatcher_prof o w) as Hprof.
  unfold run in Hrun.
  destruct (run_dispatcher o w) as [[prof|e] w1]; [|done].
  simpl in Hlog. specialize (Hprof prof eq_refl). subst prof.
  destruct (_format_obj_count _) as [pretty|e]; [|done].
  unfold read_code_events in Hrun at 1.
  rewrite Hlog in Hrun. rewrite lookup_app_r in Hrun by lia.
  rewrite Nat.sub_diag in Hrun. cbn [lookup list_lookup] in Hrun.
  rewrite (code_events_first_read (tracker_after all_code target w)
             (rss w - initial_rss_size w) eq_refl eq_refl) in Hrun.
  cbn [_events_list tracker_after] in Hrun.
  match type of Hrun with
  | (let '(r2, w0) := ?X in _) = _ => destruct X as [[ev2|e] w3]; [|done]
  end.
  inversion Hrun; subst res; simpl in *.
  split; [done|]. split; [done|]. by rewrite Htotal, length_rows_from.
Qed.

Lemma run_code_events_witness :
  objectName releaser_result = "release" /\
  codeEvents releaser_result
  = rows_from (rss initial_world - initial_rss_size initial_world) 0
      (trace_of (add_code releaser_code ∅) (rss initial_world)
         (prog_steps releaser_target)) /\
  totalEvents releaser_result
  = length (trace_of (add_code releaser_code ∅) (rss initial_world)
              (prog_steps releaser_target)).
Proof.
  apply (run_code_events "release" (FunctionObject releaser_code releaser_target)
           lists_released_before lists_released_after initial_world releaser_result
           (snd (run "release" (FunctionObject releaser_code releaser_target)
                   lists_released_before lists_released_after initial_world))).
  - reflexivity.
  - repeat constructor.
  - vm_compute. reflexivity.
Defined.

(** ** What [objectsCount] lists *)

Lemma census_get objects t :
  counter_get (census objects) t
  = Z.of_nat (count_type t (_process_in_memory_objects objects)).
Proof.
  unfold census, _get_object_count_by_type, counter_of.
  rewrite counter_of_fold_get, occurrences_map_type. simpl. lia.
Qed.

Lemma counter_get_elem c t : counter_get c t <> 0 -> (t, counter_get c t) ∈ c.
Proof.
  induction c as [|[k n] c IH]; simpl; [done|].
  case_bool_decide as E; intros H.
  - subst k. apply list_elem_of_here.
  - apply list_elem_of_further. by apply IH.
Qed.

Lemma Forall2_elem_of_l {A B} (R : A -> B -> Prop) l1 l2 x :
  Forall2 R l1 l2 -> x ∈ l1 -> exists y, y ∈ l2 /\ R x y.
Proof.
  induction 1 as [|x' y l1 l2 Hr _ IH]; intros Hx.
  - by apply elem_of_nil in Hx.
  - apply elem_of_cons in Hx as [-> | Hx].
    + exists y. split; [apply list_elem_of_here | done].
    + destruct (IH Hx) as (y' & Hy' & HR).
      exists y'. split; [by apply list_elem_of_further | done].
Qed.

Lemma format_named c out :
  _format_obj_count c = Ok out ->
  exists named, Forall2 renders (List.filter nonzero c) named /\ Permutation out named.
Proof.
  unfold _format_obj_count. intros H.
  destruct (format_loop c []) as [res|e] eqn:Hres; simpl in H; [|done].
  inversion H; subst out; clear H.
  apply format_loop_ok in Hres as (named & -> & Hn). simpl.
  exists named. split; [done | apply sorted_desc_perm].
Qed.

(** X13: the list of [_format_obj_count] holds the entries of the census
    with a non-zero count and nothing else, each once: it is as long as
    they are many, and an entry is listed exactly when it shows one of
    them. *)
Theorem format_lists_nonzero c out :
  _format_obj_count c = Ok out ->
  length out = length (List.filter nonzero c) /\
  forall ne, ne ∈ out <-> exists e, e ∈ c /\ nonzero e = true /\ renders e ne.
Proof.
  intros (named & Hn & Hperm)%format_named. split.
  - rewrite (Permutation_length Hperm). symmetry. by eapply Forall2_length.
  - intros ne. rewrite Hperm. split.
    + intros Hne. destruct (Forall2_elem_of_r _ _ _ _ Hn Hne) as (e & He & Hr).
      exists e. apply list_elem_of_In, filter_In in He as [He Hnz].
      split; [by apply list_elem_of_In | done].
    + intros (e & He & Hnz & Hr).
      assert (Hin : e ∈ List.filter nonzero c).
      { apply list_elem_of_In, filter_In. split; [by apply list_elem_of_In | done]. }
      destruct (Forall2_elem_of_l _ _ _ _ Hn Hin) as (ne' & Hne' & [Hname Hcount]).
      destruct Hr as [Hname2 Hcount2].
      assert (ne = ne'); [|by subst].
      destruct ne, ne'; simpl in *. f_equal; congruence.
Qed.

Lemma format_lists_nonzero_witness :
  length [("dict", 5); ("set", 5); ("list", 3)]
  = length (List.filter nonzero
              [(list_type, 3); (dict_type, 5); (deque_type, 0); (set_type, 5)]) /\
  forall ne, ne ∈ [("dict", 5); ("set", 5); ("list", 3)]
             <-> exists e, e ∈ [(list_type, 3); (dict_type, 5); (deque_type, 0);
                                (set_type, 5)]
                           /\ nonzero e = true /\ renders e ne.
Proof.
  apply (format_lists_nonzero
           [(list_type, 3); (dict_type, 5); (deque_type, 0); (set_type, 5)]).
  vm_compute. reflexivity.
Defined.

(** X14: a type other than [list] whose [repr] the pattern matches, and of
    which the run left more objects than were there before and than the
    profiler keeps itself, is listed in [objectsCount] under its name with
    the count after - before - overhead. *)
Theorem run_counts_new_objects name o existing new w res w' t display :
  run name o existing new w = (Ok res, w') ->
  type_display_name t = Ok display ->
  t <> list_type ->
  0 < Z.of_nat (count_type t (_process_in_memory_objects new))
      - Z.of_nat (count_type t (_process_in_memory_objects existing))
      - counter_get obj_overhead t ->
  (display,
   Z.of_nat (count_type t (_process_in_memory_objects new))
   - Z.of_nat (count_type t (_process_in_memory_objects existing))
   - counter_get obj_overhead t) ∈ objectsCount res.
Proof.
  intros Hrun Hname Ht Hpos.
  apply run_objects_count in Hrun.
  set (v := Z.of_nat (count_type t (_process_in_memory_objects new))
            - Z.of_nat (count_type t (_process_in_memory_objects existing))
            - counter_get obj_overhead t) in *.
  assert (Hov : 0 <= counter_get obj_overhead t).
  { apply counter_get_nonneg. unfold obj_overhead. vm_compute. repeat constructor. }
  assert (Hget : counter_get (result_obj_count new existing) t = v).
  { unfold result_obj_count. rewrite counter_get_set.
    rewrite bool_decide_eq_false_2 by done.
    rewrite counter_sub_get by (apply counter_sub_NoDup || apply obj_overhead_NoDup).
    unfold _get_obj_count_difference.
    rewrite counter_sub_get by apply counter_of_NoDup.
    fold (census new) (census existing). rewrite !census_get. unfold v in *. lia. }
  assert (Hin : (t, v) ∈ result_obj_count new existing).
  { rewrite <- Hget. apply counter_get_elem. lia. }
  destruct (format_named _ _ Hrun) as (named & Hn & Hperm).
  assert (Hin' : (t, v) ∈ List.filter nonzero (result_obj_count new existing)).
  { apply list_elem_of_In, filter_In. split; [by apply list_elem_of_In|].
    unfold nonzero; simpl. apply negb_true_iff, Z.eqb_neq. lia. }
  destruct (Forall2_elem_of_l _ _ _ _ Hn Hin') as ([d n] & Hne & [Hd Hc]).
  simpl in *. rewrite Hname in Hd. inversion Hd; subst d n.
  by rewrite Hperm.
Qed.

Lemma run_counts_new_objects_witness :
  ("__main__.Point",
   Z.of_nat (count_type point_type (_process_in_memory_objects thousand_points))
   - Z.of_nat (count_type point_type (_process_in_memory_objects []))
   - counter_get obj_overhead point_type) ∈ objectsCount points_result.
Proof.
  apply (run_counts_new_objects "keep" (FunctionObject keeper_code keeper_target)
           [] thousand_points initial_world points_result
           (snd (run "keep" (FunctionObject keeper_code keeper_target)
                   [] thousand_points initial_world))
           point_type).
  - vm_compute. reflexivity.
  - vm_compute. reflexivity.
  - discriminate.
  - vm_compute. reflexivity.
Defined.

(** ** Reads of [code_events] *)

Lemma rows_from_lookup o evs : forall i k ev,
  evs !! k = Some ev ->
  rows_from o i evs !! k = Some (row_of o (i + k) ev).
Proof.
  induction evs as [|e evs IH]; intros i k ev Hk; [done|].
  destruct k as [|k]; simpl in *.
  - inversion Hk; subst. by rewrite Nat.add_0_r.
  - rewrite (IH (S i) k ev Hk). by replace (S i + k)%nat with (i + S k)%nat by lia.
Qed.

(** X15: with the baseline computed, the first read of [code_events]
    returns one row for every raw event, in the order of the log: the
    position counted from 1, the line, the memory less the baseline in MB,
    the unit and the file of that event. *)
Theorem code_events_rows t o :
  _resulting_events t = [] ->
  mem_overhead t = Some o ->
  exists rows,
    fst (code_events t) = Ok rows /\
    length rows = length (_events_list t) /\
    forall k ev, _events_list t !! k = Some ev ->
      rows !! k = Some [PyInt (Z.of_nat k + 1); PyInt (ev_lineno ev);
                        PyFloat (mem_in_mb (ev_mem ev) o);
                        PyStr (ev_func ev); PyStr (ev_fname ev)].
Proof.
  intros Hres Ho. exists (rows_from o 0 (_events_list t)).
  rewrite (code_events_first_read t o Hres Ho). split; [done|].
  split; [apply length_rows_from|].
  intros k ev Hk. exact (rows_from_lookup o _ 0%nat k ev Hk).
Qed.

Lemma code_events_rows_witness :
  exists rows,
    fst (code_events logged_tracker) = Ok rows /\
    length rows = length (_events_list logged_tracker) /\
    forall k ev, _events_list logged_tracker !! k = Some ev ->
      rows !! k = Some [PyInt (Z.of_nat k + 1); PyInt (ev_lineno ev);
                        PyFloat (mem_in_mb (ev_mem ev) 10485760);
                        PyStr (ev_func ev); PyStr (ev_fname ev)].
Proof. apply (code_events_rows logged_tracker 10485760); reflexivity. Defined.

(** X16: a read of [code_events] before [compute_mem_overhead] raises
    [TypeError] at the first raw event and leaves the tracker as it was;
    with an empty log it returns the empty list, baseline or not. *)
Theorem code_events_without_baseline t :
  _resulting_events t = [] ->
  (_events_list t = [] -> code_events t = (Ok [], t)) /\
  (mem_overhead t = None -> _events_list t <> [] ->
   code_events t = (Raise TypeError, t)).
Proof.
  destruct t as [ac evs orig res mo]. simpl. intros ->. split.
  - intros ->. reflexivity.
  - intros -> Hne. destruct evs as [|ev evs]; [done|]. reflexivity.
Qed.

Lemma code_events_without_baseline_witness :
  (_events_list unprepared_tracker = [] ->
   code_events unprepared_tracker = (Ok [], unprepared_tracker)) /\
  (mem_overhead unprepared_tracker = None -> _events_list unprepared_tracker <> [] ->
   code_events unprepared_tracker = (Raise TypeError, unprepared_tracker)).
Proof. apply (code_events_without_baseline unprepared_tracker). reflexivity. Defined.

(** ** When [run] returns *)

Lemma overhead_of_update p tid f w :
  (forall t, mem_overhead (f t) = mem_overhead t) ->
  overhead_of p (update_tracker tid f w) = overhead_of p w.
Proof.
  intros Hf. unfold overhead_of, update_tracker; simpl.
  destruct (decide (tid = p)) as [->|Hne].
  - rewrite list_lookup_alter_eq. destruct (trackers w !! p); simpl; [by rewrite Hf | done].
  - by rewrite list_lookup_alter_ne.
Qed.

Lemma overhead_of_exec_program p prog w :
  overhead_of p (snd (exec_program prog w)) = overhead_of p w.
Proof.
  unfold exec_program.
  assert (H : forall steps w,
            overhead_of p (fold_left (fun w s => exec_step s w) steps w)
            = overhead_of p w).
  { induction steps as [|s steps IH]; intros w0; simpl; [done|].
    rewrite IH. destruct s as [c lineno|bytes|f]; simpl; try done.
    destruct (sys_trace w0) as [[n|tid]|]; try done.
    apply overhead_of_update. intros t. by destruct (bool_decide _). }
  destruct (prog_raises prog); simpl; apply H.
Qed.

Lemma trackers_exit prof w : trackers (__exit__ prof w) = trackers w.
Proof. unfold __exit__. by destruct (trackers w !! prof). Qed.

Lemma overhead_of_exit p prof w : overhead_of p (__exit__ prof w) = overhead_of p w.
Proof. unfold __exit__. by destruct (trackers w !! prof). Qed.

Lemma overhead_of_started all_code w :
  overhead_of (length (trackers w)) (scope_started all_code w)
  = Some (Some (rss w - initial_rss_size w)).
Proof.
  unfold overhead_of, scope_started; simpl.
  rewrite lookup_app_r by lia. by rewrite Nat.sub_diag.
Qed.

Lemma readable_code_events t : readable t -> exists rows t', code_events t = (Ok rows, t').
Proof.
  intros Hr. destruct (_resulting_events t) as [|r rs] eqn:Hres.
  - destruct Hr as [[o Ho] | Hempty].
    + rewrite (code_events_first_read t o Hres Ho). by eexists _, _.
    + unfold code_events. rewrite Hres, Hempty. simpl. by eexists _, _.
  - rewrite (code_events_cached t r rs Hres). by eexists _, _.
Qed.

Lemma run_dispatcher_readable o w prof :
  fst (run_dispatcher o w) = Ok prof ->
  exists t, trackers (snd (run_dispatcher o w)) !! prof = Some t /\ readable t.
Proof.
  intros Hok. pose proof (run_dispatcher_prof o w prof Hok) as ->.
  assert (Hgen : forall all_code target r w3,
            exec_program target (scope_started all_code w) = (r, w3) ->
            exists t, trackers (__exit__ (length (trackers w)) w3)
                        !! length (trackers w) = Some t /\ readable t).
  { intros all_code target r w3 E.
    pose proof (overhead_of_exec_program (length (trackers w)) target
                  (scope_started all_code w)) as Ho.
    rewrite E, overhead_of_started in Ho. simpl in Ho.
    rewrite <- (overhead_of_exit _ (length (trackers w))) in Ho.
    unfold overhead_of in Ho.
    destruct (trackers (__exit__ _ w3) !! length (trackers w)) as [t|]; [|done].
    exists t. split; [done|]. left. simpl in Ho. inversion Ho. by eexists. }
  destruct o as [[codes|e] tg|[e|] compiled tg|[codes|e] tg|fcode tg];
    cbn [run_dispatcher] in *; try discriminate.
  - unfold run_as_package_path, with_tracker in *. cbn [__init__ fst snd] in *.
    rewrite started_package in *.
    destruct (exec_program tg _) as [r w3] eqn:E. simpl. by eapply Hgen.
  - unfold run_as_module, with_tracker in *. cbn [__init__ fst snd] in *.
    destruct compiled as [c|e].
    + rewrite started_function in *.
      destruct (exec_program tg _) as [r w3] eqn:E. simpl. by eapply Hgen.
    + cbn [fst snd]. rewrite trackers_exit. cbn [__enter__ settrace set_trackers trackers].
      eexists. split.
      * rewrite lookup_app_r by lia. by rewrite Nat.sub_diag.
      * by right.
  - unfold run_as_package_in_namespace, with_tracker in *. cbn [__init__ fst snd] in *.
    rewrite started_package in *.
    destruct (exec_program tg _) as [r w3] eqn:E. simpl. by eapply Hgen.
  - unfold run_as_function, with_tracker in *. cbn [__init__ fst snd] in *.
    rewrite started_function in *.
    destruct (exec_program tg _) as [r w3] eqn:E. simpl. by eapply Hgen.
Qed.

(** X17: [run] returns a result whenever its run mode returns and the
    formatter does: reading [code_events] never fails then, and the result
    carries the given name and the formatted counts. *)
Theorem run_returns name o existing new w prof out :
  fst (run_dispatcher o w) = Ok prof ->
  _format_obj_count (result_obj_count new existing) = Ok out ->
  exists res,
    fst (run name o existing new w) = Ok res /\
    objectName res = name /\
    objectsCount res = out.
Proof.
  intros Hok Hfmt.
  destruct (run_dispatcher_readable o w prof Hok) as (t & Ht & Hr).
  unfold run. destruct (run_dispatcher o w) as [r w1]. simpl in *. subst r.
  rewrite Hfmt.
  destruct (readable_code_events t Hr) as (rows & t' & Hc).
  destruct (read_code_events prof w1) as [r1 w2] eqn:H1.
  rewrite (read_code_events_again _ _ _ _ H1).
  unfold read_code_events in H1. rewrite Ht, Hc in H1.
  inversion H1; subst r1 w2. simpl. by eexists.
Qed.

Lemma run_returns_witness :
  exists res,
    fst (run "keep" (ModuleFile None (Ok keeper_code) exiting_target) []
           lists_released_after initial_world) = Ok res /\
    objectName res = "keep" /\
    objectsCount res = [("dict", 1)].
Proof.
  apply (run_returns "keep" (ModuleFile None (Ok keeper_code) exiting_target) []
           lists_released_after initial_world 0%nat).
  - vm_compute. reflexivity.
  - vm_compute. reflexivity.
Defined.

(** ** The pattern on the usual [repr] of a type *)










(** ** The shape of [codeEvents] *)

Lemma resulting_of_update p tid f w :
  (forall t, _resulting_events (f t) = _resulting_events t) ->
  resulting_of p (update_tracker tid f w) = resulting_of p w.
Proof.
  intros Hf. unfold resulting_of, update_tracker; simpl.
  destruct (decide (tid = p)) as [->|Hne].
  - rewrite list_lookup_alter_eq. destruct (trackers w !! p); simpl; [by rewrite Hf | done].
  - by rewrite list_lookup_alter_ne.
Qed.

Lemma resulting_of_exec_program p prog w :
  resulting_of p (snd (exec_program prog w)) = resulting_of p w.
Proof.
  unfold exec_program.
  assert (H : forall steps w,
            resulting_of p (fold_left (fun w s => exec_step s w) steps w)
            = resulting_of p w).
  { induction steps as [|s steps IH]; intros w0; simpl; [done|].
    rewrite IH. destruct s as [c lineno|bytes|f]; simpl; try done.
    destruct (sys_trace w0) as [[n|tid]|]; try done.
    apply resulting_of_update. intros t. by destruct (bool_decide _). }
  destruct (prog_raises prog); simpl; apply H.
Qed.

Lemma resulting_of_started all_code w :
  resulting_of (length (trackers w)) (scope_started all_code w) = Some [].
Proof.
  unfold resulting_of, scope_started; simpl.
  rewrite lookup_app_r by lia. by rewrite Nat.sub_diag.
Qed.

Lemma run_dispatcher_unread o w prof :
  fst (run_dispatcher o w) = Ok prof ->
  resulting_of prof (snd (run_dispatcher o w)) = Some [].
Proof.
  intros Hok. pose proof (run_dispatcher_prof o w prof Hok) as ->.
  assert (Hgen : forall all_code target r w3,
            exec_program target (scope_started all_code w) = (r, w3) ->
            resulting_of (length (trackers w)) (__exit__ (length (trackers w)) w3)
            = Some []).
  { intros all_code target r w3 E.
    pose proof (resulting_of_exec_program (length (trackers w)) target
                  (scope_started all_code w)) as Ho.
    rewrite E, resulting_of_started in Ho. simpl in Ho.
    unfold resulting_of. by rewrite trackers_exit. }
  destruct o as [[codes|e] tg|[e|] compiled tg|[codes|e] tg|fcode tg];
    cbn [run_dispatcher] in *; try discriminate.
  - unfold run_as_package_path, with_tracker in *. cbn [__init__ fst snd] in *.
    rewrite started_package in *.
    destruct (exec_program tg _) as [r w3] eqn:E. simpl. by eapply Hgen.
  - unfold run_as_module, with_tracker in *. cbn [__init__ fst snd] in *.
    destruct compiled as [c|e].
    + rewrite started_function in *.
      destruct (exec_program tg _) as [r w3] eqn:E. simpl. by eapply Hgen.
    + cbn [fst snd]. unfold resulting_of. rewrite trackers_exit.
      cbn [__enter__ settrace set_trackers trackers].
      rewrite lookup_app_r by lia. by rewrite Nat.sub_diag.
  - unfold run_as_package_in_namespace, with_tracker in *. cbn [__init__ fst snd] in *.
    rewrite started_package in *.
    destruct (exec_program tg _) as [r w3] eqn:E. simpl. by eapply Hgen.
  - unfold run_as_function, with_tracker in *. cbn [__init__ fst snd] in *.
    rewrite started_function in *.
    destruct (exec_program tg _) as [r w3] eqn:E. simpl. by eapply Hgen.
Qed.

Lemma rows_from_event_row o evs : forall i k r,
  rows_from o i evs !! k = Some r -> event_row (Z.of_nat (i + k) + 1) r.
Proof.
  induction evs as [|ev evs IH]; intros i k r Hk; [done|].
  destruct k as [|k]; simpl in Hk.
  - inversion Hk; subst. rewrite Nat.add_0_r. by eexists _, _, _, _.
  - replace (i + S k)%nat with (S i + k)%nat by lia. by apply IH.
Qed.

(** X19: in every result of [run], [totalEvents] is the length of
    [codeEvents], and the row at position [k] is a list of five cells, the
    int [k + 1], an int, a float and two strings. *)
Theorem run_event_rows name o existing new w res w' :
  run name o existing new w = (Ok res, w') ->
  totalEvents res = length (codeEvents res) /\
  forall k r, codeEvents res !! k = Some r -> event_row (Z.of_nat k + 1) r.
Proof.
  intros Hrun. split; [by eapply run_total_events|].
  unfold run in Hrun.
  pose proof (run_dispatcher_unread o w) as Hun.
  pose proof (run_dispatcher_readable o w) as Hrd.
  destruct (run_dispatcher o w) as [[prof|e] w1]; [|done].
  specialize (Hun prof eq_refl). destruct (Hrd prof eq_refl) as (t & Ht & Hr).
  simpl in *. unfold resulting_of in Hun. rewrite Ht in Hun. simpl in Hun.
  inversion Hun as [Hres].
  destruct (_format_obj_count _) as [pretty|e]; [|done].
  unfold read_code_events in Hrun at 1. rewrite Ht in Hrun.
  assert (Hrows : exists o' evs t', code_events t = (Ok (rows_from o' 0 evs), t')).
  { destruct Hr as [[o' Ho] | Hempty].
    - rewrite (code_events_first_read t o' Hres Ho). by eexists _, _, _.
    - exists 0, [], t. unfold code_events. rewrite Hres, Hempty. by destruct t; simpl in *; subst. }
  destruct Hrows as (o' & evs & t' & Hc). rewrite Hc in Hrun.
  match type of Hrun with
  | (let '(r2, w0) := ?X in _) = _ => destruct X as [[ev2|e] w3]; [|done]
  end.
  inversion Hrun; subst res; simpl.
  intros k r Hk. by apply (rows_from_event_row o' evs 0 k r).
Qed.

Lemma run_event_rows_witness :
  totalEvents keeper_result = length (codeEvents keeper_result) /\
  forall k r, codeEvents keeper_result !! k = Some r -> event_row (Z.of_nat k + 1) r.
Proof.
  apply (run_event_rows "keep" (ModuleFile None (Ok keeper_code) keeper_target) []
           lists_released_after initial_world keeper_result
           (snd (run "keep" (ModuleFile None (Ok keeper_code) keeper_target) []
                   lists_released_after initial_world))).
  vm_compute. reflexivity.
Defined.

(** ** Exceptions of the target *)

(** X20: an exception of the target other than [SystemExit] reaches the
    caller of every run mode, and of [run]. *)
Theorem target_error_reaches_caller o all_code steps e name existing new w :
  loaded o = Some (all_code, Program steps (Some e)) ->
  e <> SystemExit ->
  fst (run_dispatcher o w) = Raise e /\
  fst (run name o existing new w) = Raise e.
Proof.
  intros Hload He.
  assert (H : fst (run_dispatcher o w) = Raise e).
  { destruct o as [[codes|e0] tg|[e0|] [c|e'] tg|[codes|e0] tg|fcode tg];
      simpl in Hload; try discriminate; inversion Hload; subst; by destruct e. }
  split; [done|]. unfold run. destruct (run_dispatcher o w) as [r w1].
  simpl in H. by rewrite H.
Qed.

Lemma target_error_reaches_caller_witness :
  fst (run_dispatcher (ModuleFile None (Ok keeper_code) failing_target) initial_world)
  = Raise (OtherError "ValueError") /\
  fst (run "keep" (ModuleFile None (Ok keeper_code) failing_target) []
         lists_released_after initial_world) = Raise (OtherError "ValueError").
Proof.
  apply (target_error_reaches_caller _ (add_code keeper_code ∅) [Line keeper_code 2]).
  - reflexivity.
  - discriminate.
Defined.

(** X21: in the package modes and in module mode a [SystemExit] of the
    target ends the run as a return does: the tracker is returned, and the
    state, log included, is the one that the same steps leave when the
    target returns after them. *)
Theorem guarded_modes_return_on_exit o all_code steps w :
  loaded o = Some (all_code, Program steps (Some SystemExit)) ->
  (forall fcode target, o <> FunctionObject fcode target) ->
  exists o',
    loaded o' = Some (all_code, Program steps None) /\
    run_dispatcher o w = run_dispatcher o' w /\
    fst (run_dispatcher o w) = Ok (length (trackers w)).
Proof.
  intros Hload Hnf.
  destruct o as [[codes|e0] tg|[e0|] [c|e'] tg|[codes|e0] tg|fcode tg];
    simpl in Hload; try discriminate; inversion Hload; subst.
  - exists (PackagePath (Ok codes) (Program steps None)). by repeat split.
  - exists (ModuleFile None (Ok c) (Program steps None)). by repeat split.
  - exists (PackageInNamespace (Ok codes) (Program steps None)). by repeat split.
  - by destruct (Hnf fcode (Program steps (Some SystemExit))).
Qed.

Lemma guarded_modes_return_on_exit_witness :
  exists o',
    loaded o' = Some (add_code keeper_code ∅, Program (prog_steps exiting_target) None) /\
    run_dispatcher (ModuleFile None (Ok keeper_code) exiting_target) initial_world
    = run_dispatcher o' initial_world /\
    fst (run_dispatcher (ModuleFile None (Ok keeper_code) exiting_target) initial_world)
    = Ok (length (trackers initial_world)).
Proof.
  apply (guarded_modes_return_on_exit
           (ModuleFile None (Ok keeper_code) exiting_target)).
  - reflexivity.
  - discriminate.
Defined.
